(** * Adaptive time-range partitioning scheduler: Controller and Worker

    A shallow embedding of [Controller] (bootstrap probe, query
    normalization) and of [Worker] (grain / process / release state machine
    and the tail loop [upkeep]), together with the properties stated about
    them.

    Conventions of the embedding.

    - Timestamps.  [updatedAt], [startDate] and [endDate] are ISO-8601
      strings in the source.  The code never inspects them: it hands them to
      the utilities [parseTimestamp], [getMiddleDate] and
      [isHighDensityBlock] and compares them with [===].  A timestamp is
      represented here by the instant it denotes, an integer count of units
      of the supported time resolution (milliseconds for a JavaScript
      [Date]); [===] on canonical ISO strings is equality of instants.
    - Asynchrony.  Every [await this._request(..)] receives its answer from
      the environment.  A run of a loop is driven by the finite list of
      answers the environment has given so far; each iteration consumes
      exactly one answer, so the loops are structurally recursive on that
      list.  A run that has used up the list is still waiting for an answer.
    - Effects.  Requests, sleeps, insertions and emitted events are recorded,
      in program order, in the list of effects a computation returns.
    - Logging ([Logger], [console.log]) is not part of the model. *)

From Stdlib Require Import ZArith List String Ascii Bool Lia DecimalString.
Import ListNotations.
Local Open Scope string_scope.
Local Open Scope Z_scope.

(** ** Values shared by both classes *)

Definition Timestamp := Z.

(** A record of the feed: its [updatedAt] stamp and the remaining,
    schema-specific fields, kept opaque. *)
Record Record_ := { updatedAt : Timestamp; fields : string }.

(** [config.mapping]: [mapping.type.root] is the response field holding the
    record array, [mapping.type.dataset] selects the URL path. *)
Record MappingType := { root : string; dataset : string }.
Record Mapping := { type : MappingType }.

Record Block := {
  id : string;
  startDate : Timestamp;
  endDate : Timestamp;
  contract : string;
  mapping : option Mapping
}.

(** Success payload [{ [root]: Record[], continuation?: string }];
    [records] is [data[root]] for the configured root. *)
Module Feed.
Record SuccessType := { records : list Record_; continuation : option string }.
Record ErrorType := { message : string }.
End Feed.

(** [AxiosResponse<SuccessType | ErrorType>]. *)
Inductive Response :=
| SuccessResponse (status : Z) (data : Feed.SuccessType)
| ErrorResponse (status : Z) (data : Feed.ErrorType).

Definition status_of (r : Response) : Z :=
  match r with SuccessResponse s _ | ErrorResponse s _ => s end.

(** Modelled from the spec: [isSuccessResponse] of the utils module, which
    is not among the sources.  It "classifies an HTTP response as
    application-success or application-failure"; in the source it is the type
    guard that narrows the union to its [SuccessType] side, that is the test
    of the tag. *)
Definition isSuccessResponse (r : Response) : bool :=
  match r with SuccessResponse _ _ => true | ErrorResponse _ _ => false end.

(** Exceptions the modelled code can raise. *)
Inductive Exn :=
| InitError (statuses : list Z)  (* Error(`Intiailizing blocks failed: ..`) *)
| TypeError                      (* property read on [undefined]; conversion of a Symbol *)
| Thrown (what : string).        (* an exception raised by an object's own conversion *)

Inductive Result (A : Type) :=
| Ok (a : A)
| Throw (e : Exn).
Arguments Ok {A} a.
Arguments Throw {A} e.

(** The decimal numeral of an integer. *)
Definition decimal (n : Z) : string := NilZero.string_of_int (Z.to_int n).

(** ** Numbers and their string conversion

    [Number::toString] of the language, radix 10.  A Number is a binary64
    value; the finite ones are the values [M × 2^U] with [M < 2^53] and
    [-1074 <= U <= 971]. *)
Module JsNumber.

Fixpoint zeros (n : nat) : string :=
  match n with O => "" | S n' => String "0" (zeros n') end.

(** The real number [mant × 2^exp2 × 10^exp10]. *)
Record Scaled := { mant : Z; exp2 : Z; exp10 : Z }.

Definition scaled_compare (a b : Scaled) : comparison :=
  let m2 := Z.min (exp2 a) (exp2 b) in
  let m10 := Z.min (exp10 a) (exp10 b) in
  Z.compare (mant a * 2 ^ (exp2 a - m2) * 10 ^ (exp10 a - m10))
            (mant b * 2 ^ (exp2 b - m2) * 10 ^ (exp10 b - m10)).

Definition scaled_ltb (a b : Scaled) : bool :=
  match scaled_compare a b with Lt => true | _ => false end.

Definition scaled_leb (a b : Scaled) : bool :=
  match scaled_compare a b with Gt => false | _ => true end.

Inductive Rounded :=
| RZero
| RInfinity
| RFinite (M U : Z).  (* [M × 2^U], [2^52 <= M < 2^53] or [U = -1074] *)

(** The Number value for [m × 2^e], [m > 0]: round to nearest, ties to the
    even significand, overflow to infinity. *)
Definition round_dyadic (m e : Z) : Rounded :=
  let E := Z.log2 m + e in
  let u := Z.max (E - 52) (-1074) in
  let q :=
    if u <=? e then m * 2 ^ (e - u)
    else
      let sh := u - e in
      let q := m / 2 ^ sh in
      let r := m mod 2 ^ sh in
      let half := 2 ^ (sh - 1) in
      if r <? half then q
      else if half <? r then q + 1
      else if Z.even q then q else q + 1 in
  if q =? 0 then RZero
  else
    let '(M, U) := if q =? 2 ^ 53 then (2 ^ 52, u + 1) else (q, u) in
    if 971 <? U then RInfinity else RFinite M U.

(** Moves [n] until [10^(n-1) <= x < 10^n]. *)
Fixpoint adjust (fuel : nat) (x : Scaled) (n : Z) : Z :=
  match fuel with
  | O => n
  | S fuel' =>
      if scaled_leb {| mant := 1; exp2 := 0; exp10 := n |} x then
        adjust fuel' x (n + 1)
      else if scaled_ltb x {| mant := 1; exp2 := 0; exp10 := n - 1 |} then
        adjust fuel' x (n - 1)
      else n
  end.

(** The [n] with [10^(n-1) <= M × 2^U < 10^n], from an estimate by the
    binary exponent. *)
Definition decimal_exponent (M U : Z) : Z :=
  adjust 16 {| mant := M; exp2 := U; exp10 := 0 |}
    ((Z.log2 M + U) * 30103 / 100000).

(** Step 5: integers [s] and [n] with [s × 10^(n-k)] rounding to
    [x = M × 2^U], for the least number [k] of digits, and among two such
    [s] the one closer to [x], the even one when they are as close.  The
    search starts at [k] digits; 17 digits always suffice. *)
Fixpoint shortest (fuel : nat) (M U n k : Z) : Z * Z :=
  let t := n - k in
  let num := M * 2 ^ (Z.max U 0) * 10 ^ (Z.max (- t) 0) in
  let den := 2 ^ (Z.max (- U) 0) * 10 ^ (Z.max t 0) in
  let s_lo := num / den in
  let s_hi := s_lo + 1 in
  match fuel with
  | O => (s_lo, n)
  | S fuel' =>
      (* the reals that round to [x], in units of [2^(U-2)] *)
      let lo :=
        {| mant := 4 * M - (if (M =? 2 ^ 52) && (-1074 <? U) then 1 else 2);
           exp2 := U - 2; exp10 := 0 |} in
      let hi := {| mant := 4 * M + 2; exp2 := U - 2; exp10 := 0 |} in
      let inside (s : Z) :=
        let v := {| mant := s; exp2 := 0; exp10 := t |} in
        if Z.even M then scaled_leb lo v && scaled_leb v hi
        else scaled_ltb lo v && scaled_ltb v hi in
      let pick (s : Z) :=
        if s =? 10 ^ k then (10 ^ (k - 1), n + 1) else (s, n) in
      match inside s_lo, inside s_hi with
      | false, false => shortest fuel' M U n (k + 1)
      | true, false => pick s_lo
      | false, true => pick s_hi
      | true, true =>
          match scaled_compare
                  {| mant := 2 * M; exp2 := U; exp10 := 0 |}
                  {| mant := 2 * s_lo + 1; exp2 := 0; exp10 := t |} with
          | Lt => pick s_lo
          | Gt => pick s_hi
          | Eq => if Z.even s_lo then pick s_lo else pick s_hi
          end
      end
  end.

Definition sign_text (n : Z) : string := if n <? 0 then "-" else "+".

(** Steps 6 to 10: the digits of [s] laid out for the exponent [n]. *)
Definition layout (s n : Z) : string :=
  let ds := decimal s in
  let k := Z.of_nat (String.length ds) in
  if (k <=? n) && (n <=? 21) then ds ++ zeros (Z.to_nat (n - k))
  else if (0 <? n) && (n <=? 21) then
    substring 0 (Z.to_nat n) ds ++ "."
    ++ substring (Z.to_nat n) (Z.to_nat (k - n)) ds
  else if (-6 <? n) && (n <=? 0) then "0." ++ zeros (Z.to_nat (- n)) ++ ds
  else if k =? 1 then ds ++ "e" ++ sign_text (n - 1) ++ decimal (Z.abs (n - 1))
  else substring 0 1 ds ++ "." ++ substring 1 (Z.to_nat (k - 1)) ds
       ++ "e" ++ sign_text (n - 1) ++ decimal (Z.abs (n - 1)).

(** [Number::toString] by its steps, for the Number value for [m × 2^e]. *)
Definition toString_steps (m e : Z) : string :=
  if m =? 0 then "0"
  else
    let body :=
      match round_dyadic (Z.abs m) e with
      | RZero => "0"
      | RInfinity => "Infinity"
      | RFinite M U =>
          let '(s, n) := shortest 17 M U (decimal_exponent M U) 1 in
          layout s n
      end in
    if (m <? 0) && negb (body =? "0")%string then "-" ++ body else body.

(** [Number::toString] of the Number value for [m × 2^e].  An integer of
    magnitude up to [2^53] is a Number itself, no other numeral of as few
    digits rounds to it, and it has at most 16 digits: the steps give its
    decimal numeral. *)
Definition toString (m e : Z) : string :=
  if (e =? 0) && (Z.abs m <=? 2 ^ 53) then decimal m else toString_steps m e.

End JsNumber.

(** ** Values

    A JavaScript value, as far as a template literal tells values apart.
    An object is represented by the outcome of its conversion to a string
    (what [ToPrimitive] with hint string and then [ToString] give: a string,
    or the exception the object's own [toString] or [valueOf] raises); the
    conversion is taken to have no other effect. *)
Inductive JsValue :=
| JString (s : string)
| JNumber (n : Z)              (* the Number value for the integer [n] *)
| JFraction (m e : Z)          (* the Number value for [m × 2^e] *)
| JNaN
| JInfinity (negative : bool)
| JBigInt (n : Z)
| JBoolean (b : bool)
| JUndefined
| JNull
| JSymbol
| JObject (conversion : Result string).

(** [ToString], the conversion a template literal applies to the value of
    each substitution. *)
Definition ToString (v : JsValue) : Result string :=
  match v with
  | JString s => Ok s
  | JNumber n => Ok (JsNumber.toString n 0)
  | JFraction m e => Ok (JsNumber.toString m e)
  | JNaN => Ok "NaN"
  | JInfinity negative => Ok (if negative then "-Infinity" else "Infinity")
  | JBigInt n => Ok (decimal n)
  | JBoolean b => Ok (if b then "true" else "false")
  | JUndefined => Ok "undefined"
  | JNull => Ok "null"
  | JSymbol => Throw TypeError
  | JObject conversion => conversion
  end.

(** ** Parameter objects

    A parameter object, given by its property definitions in the order they
    are made, as an object literal with its spreads makes them: a key
    defined again keeps its place and takes the later value.  Keys are
    property keys: a numeric key of the source is the string it converts
    to. *)
Definition Params := list (string * JsValue).

Definition digit_of (c : ascii) : option Z :=
  let n := Z.of_nat (nat_of_ascii c) in
  if (48 <=? n) && (n <=? 57) then Some (n - 48) else None.

Fixpoint digits_value (acc : Z) (s : string) : option Z :=
  match s with
  | EmptyString => Some acc
  | String c s' =>
      match digit_of c with
      | Some d => digits_value (10 * acc + d) s'
      | None => None
      end
  end.

(** An array index: the canonical numeral of an integer from 0 to
    [2^32 - 2]. *)
Definition array_index (key : string) : option Z :=
  match digits_value 0 key with
  | Some i =>
      if (decimal i =? key)%string && (i <? 2 ^ 32 - 1) then Some i else None
  | None => None
  end.

(** The value a key holds once all definitions are made. *)
Fixpoint lookup (params : Params) (key : string) : option JsValue :=
  match params with
  | [] => None
  | (k, v) :: rest =>
      match lookup rest key with
      | Some v' => Some v'
      | None => if (k =? key)%string then Some v else None
      end
  end.

(** [params[key]] *)
Definition get (params : Params) (key : string) : JsValue :=
  match lookup params key with Some v => v | None => JUndefined end.

(** The keys in the order they were first defined. *)
Fixpoint own_keys (seen : list string) (params : Params) : list string :=
  match params with
  | [] => []
  | (k, _) :: rest =>
      if existsb (String.eqb k) seen then own_keys seen rest
      else k :: own_keys (k :: seen) rest
  end.

Fixpoint insert_sorted (i : Z) (l : list Z) : list Z :=
  match l with
  | [] => [i]
  | j :: l' => if i <=? j then i :: l else j :: insert_sorted i l'
  end.

(** [Object.keys(params)]: the array indices in ascending order, then the
    other keys in the order they were first defined. *)
Definition Object_keys (params : Params) : list string :=
  let keys := own_keys [] params in
  let indices :=
    flat_map (fun k => match array_index k with Some i => [i] | None => [] end)
      keys in
  let names :=
    filter (fun k => match array_index k with Some _ => false | None => true end)
      keys in
  (map decimal (fold_right insert_sorted [] indices) ++ names)%list.

(** Truthiness of a string: only the empty string is falsy. *)
Definition truthy (s : string) : bool := negb (s =? "")%string.

(** Truthiness of an optional string property. *)
Definition truthy_opt (o : option string) : bool :=
  match o with Some s => truthy s | None => false end.

(** [arr[i]]: [undefined] outside [0 .. length-1]. *)
Definition js_index {A : Type} (arr : list A) (i : Z) : option A :=
  if i <? 0 then None else nth_error arr (Z.to_nat i).

(** ** Controller *)

Module Controller.

Record ControllerConfig := {
  chain : string;
  apiKey : string;
  cfg_mapping : Mapping
}.

(** [UrlBase[chain]]: [undefined] for a key the table does not have. *)
Definition UrlBase (chain : string) : option string :=
  if (chain =? "mainnet")%string then Some "https://api.reservoir.tools"
  else if (chain =? "goerli")%string then Some "https://api-goerli.reservoir.tools"
  else None.

(** [UrlPaths[dataset]] *)
Definition UrlPaths (dataset : string) : option string :=
  if (dataset =? "sales")%string then Some "/sales/v4"
  else if (dataset =? "asks")%string then Some "/orders/asks/v4"
  else if (dataset =? "bids")%string then Some "/orders/bids/v5"
  else None.

(** [${x}] for a table entry that may be [undefined]. *)
Definition template (x : option string) : string :=
  match x with Some s => s | None => "undefined" end.

(** The argument of one [axios(..)] call: the spread configuration, the URL
    and the headers; [validateStatus] accepts every status. *)
Record HttpCall := {
  call_config : ControllerConfig;
  call_url : string;
  call_headers : list (string * string)
}.

(** What one [axios(..)] call does: it throws (no status obtained) or it
    resolves with a response, whatever its status. *)
Inductive Transport :=
| Fault
| Answer (r : Response).

(** Second argument of [this.emit]. *)
Inductive Payload :=
| NoPayload      (* [emit('controller.event')] *)
| EmptyObject    (* [{}] *)
| QueueUpdate.   (* [{ type: 'queue.update' }] *)

Inductive ControllerEffect :=
| QueueInsert (b : Block)                     (* [this.queue._insertBlock(b)] *)
| Sleep (ms : Z)                              (* [setTimeout(r, ms)] *)
| EmitEvent (name : string) (p : Payload).    (* [this.emit(name, p)] *)

(** [WorkersEvent] *)
Record WorkersEventData := { ev_startDate : Timestamp; ev_endDate : Timestamp }.
Record WorkersEvent := { ev_id : string; ev_data : WorkersEventData }.

Section WithConfig.

Variable config : ControllerConfig.

Definition sortField (root : string) : string :=
  if (root =? "sales")%string then "orderBy=updated_at" else "sortBy=updatedAt".

(** [keys.map((key) => queries.push(`${key}=${params[key]}`))]: the queries
    after the pushes, or the exception a conversion raises. *)
Fixpoint push_each (params : Params) (keys : list string) (queries : list string)
    : Result (list string) :=
  match keys with
  | [] => Ok queries
  | key :: keys' =>
      match ToString (get params key) with
      | Throw e => Throw e
      | Ok text =>
          push_each params keys' (queries ++ [(key ++ "=" ++ text)%string])%list
      end
  end.

Definition normalizeParameters (params : Params) : Result string :=
  let queries := ["limit=1000"; "includeCriteriaMetadata=true"] in
  let root := root (type (cfg_mapping config)) in
  let queries := (queries ++ [sortField root])%list in
  match push_each params (Object_keys params) queries with
  | Throw e => Throw e
  | Ok queries => Ok (String.concat "&" queries)
  end.

(** [page[page.length - 1].updatedAt] *)
Definition last_updatedAt (page : list Record_) : Result Timestamp :=
  match js_index page (Z.of_nat (List.length page) - 1) with
  | Some r => Ok (updatedAt r)
  | None => Throw TypeError
  end.

(** [_getInitialBlock], given the answers to the two probe requests and the
    identifier [v4()] produces. *)
Definition _getInitialBlock (req0 req1 : Response) (uuid : string) : Result Block :=
  match req0, req1 with
  | SuccessResponse _ d0, SuccessResponse _ d1 =>
      match last_updatedAt (Feed.records d0) with
      | Throw e => Throw e
      | Ok sd =>
          match last_updatedAt (Feed.records d1) with
          | Throw e => Throw e
          | Ok ed =>
              Ok {| id := uuid;
                    mapping := Some (cfg_mapping config);
                    startDate := sd;
                    endDate := ed;
                    contract := "" |}
          end
      end
  | _, _ => Throw (InitError [status_of req0; status_of req1])
  end.

(** The two probe queries of [_getInitialBlock]. *)
Definition probe_queries : Result string * Result string :=
  (normalizeParameters [("sortDirection", JString "asc")],
   normalizeParameters [("sortDirection", JString "desc")]).

(** The argument [request] passes to [axios]. *)
Definition request_call (parameters : string) : HttpCall :=
  {| call_config := config;
     call_url :=
       (template (UrlBase (chain config))
        ++ template (UrlPaths (dataset (type (cfg_mapping config))))
        ++ "?" ++ parameters)%string;
     call_headers :=
       [("X-API-KEY", apiKey config);
        ("X-SYSTEM-TYPE", "sync-node");
        ("Content-Type", "application/json")] |}.

(** [request]: [wire] lists what the successive [axios] calls do; the result
    is the response returned, if one has been obtained, and the calls made. *)
Fixpoint request (parameters : string) (wire : list Transport)
    : option Response * list HttpCall :=
  match wire with
  | [] => (None, [request_call parameters])
  | Answer req :: _ => (Some req, [request_call parameters])
  | Fault :: wire' =>
      let '(res, calls) := request parameters wire' in
      (res, request_call parameters :: calls)
  end.

(** [_launch], from the answers to the two probes on. *)
Definition _launch (req0 req1 : Response) (uuid : string)
    : Result unit * list ControllerEffect :=
  match _getInitialBlock req0 req1 uuid with
  | Throw e => (Throw e, [])
  | Ok block =>
      (Ok tt, [QueueInsert block; EmitEvent "controller.event" NoPayload])
  end.

Definition _blockSplit (event : WorkersEvent) (uuid : string)
    : list ControllerEffect :=
  let block :=
    {| id := uuid;
       startDate := ev_startDate (ev_data event);
       endDate := ev_endDate (ev_data event);
       contract := "";
       mapping := Some (cfg_mapping config) |} in
  [QueueInsert block; EmitEvent "controller.event" QueueUpdate].

Definition _workerBusy : list ControllerEffect :=
  [Sleep 5000; EmitEvent "new-block" EmptyObject].

End WithConfig.

End Controller.

(** ** Worker *)

Module Worker.

Record WorkerData := {
  block : option Block;
  data_continuation : option string  (* [data.continuation] *)
}.

Record Worker := {
  busy : bool;
  data : WorkerData;
  continuation : string
}.

(** [new Worker(controller)] *)
Definition initial : Worker :=
  {| busy := false;
     data := {| block := None; data_continuation := None |};
     continuation := "" |}.

(** Payload of the ['worker.event'] channel. *)
Inductive WorkerEvent :=
| WorkerSplit (b : Block)     (* [type: 'worker.split'] *)
| WorkerRelease (b : Block).  (* [type: 'worker.release'] *)

Inductive Effect :=
| Request (parameters : string)                       (* [this._request(q)] *)
| Delay (ms : Z)                                      (* [delay(ms)] *)
| Insert (records : list Record_)                     (* [this._insert(r)] *)
| Upsert (datatype : string) (records : list Record_) (* [InsertionService.upsert] *)
| Emit (e : WorkerEvent).                             (* [this.emit('worker.event', e)] *)

(** A method body: reads and updates the Worker's fields and performs
    effects. *)
Definition Act (A : Type) : Type := Worker -> A * Worker * list Effect.

Definition ret {A} (a : A) : Act A := fun w => (a, w, []).

Definition bind {A B} (m : Act A) (k : A -> Act B) : Act B :=
  fun w =>
    let '(a, w1, e1) := m w in
    let '(b, w2, e2) := k a w1 in
    (b, w2, (e1 ++ e2)%list).

Notation "x <- m ;; k" := (bind m (fun x => k))
  (at level 61, m at next level, right associativity).
Notation "m ;; k" := (bind m (fun _ => k))
  (at level 61, right associativity).

Definition tell (e : Effect) : Act unit := fun w => (tt, w, [e]).
Definition this : Act Worker := fun w => (w, w, []).
Definition set_busy (v : bool) : Act unit :=
  fun w => (tt, {| busy := v; data := data w; continuation := continuation w |}, []).
Definition set_data_block (v : option Block) : Act unit :=
  fun w => (tt, {| busy := busy w;
                   data := {| block := v; data_continuation := data_continuation (data w) |};
                   continuation := continuation w |}, []).
Definition set_continuation (v : string) : Act unit :=
  fun w => (tt, {| busy := busy w; data := data w; continuation := v |}, []).

Definition delay (ms : Z) : Act unit := tell (Delay ms).

(** The object literal [{ startDate, endDate, id, contract }]. *)
Definition literal (b : Block) : Block :=
  {| id := id b; startDate := startDate b; endDate := endDate b;
     contract := contract b; mapping := None |}.

Definition with_endDate (b : Block) (e : Timestamp) : Block :=
  {| id := id b; startDate := startDate b; endDate := e;
     contract := contract b; mapping := None |}.

(** [...(s && { key: s })] *)
Definition spread_if (key s : string) : Params :=
  if truthy s then [(key, JString s)] else [].

Definition _split (b : Block) : Act unit := tell (Emit (WorkerSplit b)).

Definition _release (b : Block) : Act unit :=
  set_busy false ;;
  set_continuation "" ;;
  tell (Emit (WorkerRelease b)).

(** How an iteration of a [while (true)] loop ends. *)
Inductive Control := Continue | Break | Return.

(** What a call has done by the time the environment's answers run out. *)
Inductive Outcome :=
| Returned   (* the call has returned *)
| Awaiting.  (* the call is waiting for the answer to its last request *)

Inductive GrainExit :=
| Grained (b : Block) (rest : list Response)  (* [break]: density acceptable *)
| GrainReleased                               (* [return this._release(..)] *)
| GrainPending.

Inductive PageExit :=
| Paged (rest : list Response)  (* [break] *)
| PagePending.

(** The answers of the environment during one tick of the tail loop: to the
    ascending request, to the descending request and to [v4()]; the last two
    are consulted only if the tick gets that far. *)
Record Tick := { tick_asc : Response; tick_desc : Response; tick_uuid : string }.

Section WithController.

(** What the Worker binds from its controller and imports from utils; none
    of these is among the sources. *)
Variable _normalize : Params -> string.
Variable _datatype : string.
Variable parseTimestamp : Timestamp -> Z.
Variable isHighDensityBlock : list Record_ -> Z -> bool.
Variable getMiddleDate : Timestamp -> Timestamp -> Timestamp.

Definition _insert (records : list Record_) : Act unit := tell (Insert records).
Definition _request (parameters : string) : Act unit := tell (Request parameters).

(** Query of the two bounding fetches of [process]. *)
Definition bounds_query (b : Block) (sortDirection : string) : string :=
  _normalize
    (spread_if "contract" (contract b) ++
     [("startTimestamp", JNumber (parseTimestamp (startDate b)));
      ("endTimestamp", JNumber (parseTimestamp (endDate b)));
      ("sortDirection", JString sortDirection)])%list.

(** Query of the pagination phase of [process]. *)
Definition page_query (cursor : string) (b : Block) : string :=
  _normalize
    (spread_if "continuation" cursor ++
     [("sortDirection", JString "asc");
      ("startTimestamp", JNumber (parseTimestamp (startDate b)));
      ("endTimestamp", JNumber (parseTimestamp (endDate b)))])%list.

(** Body of the graining loop after the descending answer has arrived. *)
Definition grain_respond (ascRecords : list Record_) (b : Block)
    (descRes : Response) : Act (Control * Block) :=
  match descRes with
  | ErrorResponse _ _ => delay 5000 ;; ret (Continue, b)
  | SuccessResponse _ d =>
      let records := (ascRecords ++ Feed.records d)%list in
      _insert records ;;
      if isHighDensityBlock records 300000 then
        let middleDate := getMiddleDate (startDate b) (endDate b) in
        if (middleDate =? startDate b) || (middleDate =? endDate b) then
          _release (literal b) ;; ret (Return, b)
        else
          _split {| startDate := middleDate; endDate := endDate b;
                    id := id b; contract := contract b; mapping := None |} ;;
          ret (Continue, with_endDate b middleDate)
      else ret (Break, b)
  end.

(** First [while (true)] of [process]. *)
Fixpoint grain (ascRecords : list Record_) (b : Block) (trace : list Response)
    : Act GrainExit :=
  _request (bounds_query b "desc") ;;
  match trace with
  | [] => ret GrainPending
  | descRes :: trace' =>
      cb <- grain_respond ascRecords b descRes ;;
      match fst cb with
      | Continue => grain ascRecords (snd cb) trace'
      | Break => ret (Grained (snd cb) trace')
      | Return => ret GrainReleased
      end
  end.

(** Body of the pagination loop after the answer has arrived. *)
Definition page_respond (res : Response) : Act Control :=
  match res with
  | ErrorResponse _ _ => delay 5000 ;; ret Continue
  | SuccessResponse _ d =>
      let records := Feed.records d in
      if (List.length records =? 0)%nat then ret Break
      else
        _insert records ;;
        match Feed.continuation d with
        | Some c => if truthy c then set_continuation c ;; ret Continue else ret Break
        | None => ret Break
        end
  end.

(** Second [while (true)] of [process]. *)
Fixpoint paginate (b : Block) (trace : list Response) : Act PageExit :=
  w <- this ;;
  _request (page_query (continuation w) b) ;;
  match trace with
  | [] => ret PagePending
  | res :: trace' =>
      c <- page_respond res ;;
      match c with
      | Continue => paginate b trace'
      | Break | Return => ret (Paged trace')
      end
  end.

Fixpoint process (b : Block) (trace : list Response) : Act Outcome :=
  set_busy true ;;
  set_data_block (Some (literal b)) ;;
  _request (bounds_query b "asc") ;;
  match trace with
  | [] => ret Awaiting
  | ascRes :: trace' =>
      match ascRes with
      | ErrorResponse _ _ => delay 5000 ;; process (literal b) trace'
      | SuccessResponse _ d =>
          if (List.length (Feed.records d) =? 0)%nat then
            _release (literal b) ;; ret Returned
          else
            g <- grain (Feed.records d) (literal b) trace' ;;
            match g with
            | GrainPending => ret Awaiting
            | GrainReleased => ret Returned
            | Grained b' rest =>
                p <- paginate b' rest ;;
                match p with
                | PagePending => ret Awaiting
                | Paged _ => _release (literal b') ;; ret Returned
                end
            end
      end
  end.

(** ['9999-12-31T23:59:59Z'] *)
Definition far_future : Timestamp := 253402300799000.

(** One pass through the body of the [while (true)] of [upkeep]; [date] is
    the [new Date()] taken on entry, [startDate] the local variable.  The
    result is the value of [startDate] after the pass. *)
Definition upkeep_tick (date startDate : Timestamp) (t : Tick) : Act Timestamp :=
  delay 5000 ;;
  w <- this ;;
  _request
    (_normalize
       (spread_if "continuation" (continuation w) ++
        [("sortDirection", JString "asc");
         ("startTimestamp", JNumber (parseTimestamp startDate));
         ("endTimestamp", JNumber (parseTimestamp far_future))])%list) ;;
  match tick_asc t with
  | ErrorResponse _ _ => ret startDate
  | SuccessResponse _ ascData =>
      let records := Feed.records ascData in
      match records with
      | [] => ret startDate
      | first :: _ =>
          tell (Upsert _datatype records) ;;
          if negb (truthy_opt (Feed.continuation ascData)) then ret startDate
          else
            w <- this ;;
            _request
              (_normalize
                 (spread_if "continuation" (continuation w) ++
                  [("sortDirection", JString "desc");
                   ("startTimestamp", JNumber (parseTimestamp date));
                   ("endTimestamp", JNumber 253402214400)])%list) ;;
            match tick_desc t with
            | ErrorResponse _ _ => ret startDate
            | SuccessResponse _ descData =>
                let isHighDensity :=
                  isHighDensityBlock (records ++ Feed.records descData)%list 300000 in
                if isHighDensity then
                  let endDate := updatedAt (last records first) in
                  _split {| startDate := updatedAt first;
                            endDate := endDate;
                            id := tick_uuid t;
                            contract := "";
                            mapping := None |} ;;
                  ret (updatedAt (last records first))
                else ret startDate
            end
      end
  end.

Fixpoint upkeep_loop (date startDate : Timestamp) (ticks : list Tick)
    : Act Timestamp :=
  match ticks with
  | [] => ret startDate
  | t :: ticks' =>
      startDate' <- upkeep_tick date startDate t ;;
      upkeep_loop date startDate' ticks'
  end.

(** [upkeep], run for as many ticks as the environment has answered;
    [now] is the instant [new Date()] returns. *)
Definition upkeep (now : Timestamp) (ticks : list Tick) : Act Timestamp :=
  upkeep_loop now now ticks.

End WithController.

End Worker.

(** ** Vocabulary of the stated properties *)

(** The [&key=value] pairs written one after the other, as they stand. *)
Definition pairs_text (pairs : list (string * string)) : string :=
  fold_right
    (fun kv acc => ("&" ++ fst kv ++ "=" ++ snd kv ++ acc)%string)
    "" pairs.

(** What "verbatim" says a value contributes to a query: a string its own
    characters, an integer its decimal numeral, as long as every integer of
    that size is a Number ([2^53] in magnitude).  Of other values it says
    nothing. *)
Definition verbatim (v : JsValue) : option string :=
  match v with
  | JString s => Some s
  | JNumber n => if Z.abs n <=? 2 ^ 53 then Some (decimal n) else None
  | _ => None
  end.

(** Keys that [Object.keys] lists as they were written: no key twice, none
    an array index. *)
Definition plain_keys (keys : list string) : Prop :=
  NoDup keys /\ Forall (fun k => array_index k = None) keys.

(** The texts of the values held by [keys], converted in turn, or the first
    exception a conversion raises. *)
Fixpoint texts_of (params : Params) (keys : list string) : Result (list string) :=
  match keys with
  | [] => Ok []
  | key :: keys' =>
      match ToString (get params key) with
      | Throw e => Throw e
      | Ok text =>
          match texts_of params keys' with
          | Throw e => Throw e
          | Ok texts => Ok (text :: texts)
          end
      end
  end.

(** The texts of the values of the definitions, converted in the order
    written, or the first exception a conversion raises. *)
Fixpoint texts_written (params : Params) : Result (list string) :=
  match params with
  | [] => Ok []
  | (_, v) :: rest =>
      match ToString v with
      | Throw e => Throw e
      | Ok text =>
          match texts_written rest with
          | Throw e => Throw e
          | Ok texts => Ok (text :: texts)
          end
      end
  end.

(** String-valued parameters. *)
Definition strings (pairs : list (string * string)) : Params :=
  map (fun kv => (fst kv, JString (snd kv))) pairs.

(** The oldest and the newest stamp on a page, whatever its order. *)
Definition oldest (page : list Record_) : option Timestamp :=
  match map updatedAt page with
  | [] => None
  | t :: ts => Some (fold_left Z.min ts t)
  end.

Definition newest (page : list Record_) : option Timestamp :=
  match map updatedAt page with
  | [] => None
  | t :: ts => Some (fold_left Z.max ts t)
  end.

(** A page in the order the feed returns it for the given direction. *)
Fixpoint ascending (page : list Record_) : Prop :=
  match page with
  | [] => True
  | r :: rest =>
      match rest with
      | [] => True
      | r' :: _ => updatedAt r <= updatedAt r'
      end /\ ascending rest
  end.

Definition descending (page : list Record_) : Prop := ascending (rev page).

(** The closed range a Block covers. *)
Definition in_range (b : Block) (t : Timestamp) : Prop :=
  startDate b <= t <= endDate b.

(** A Split event among the effects. *)
Definition is_split (e : Worker.Effect) : bool :=
  match e with
  | Worker.Emit (Worker.WorkerSplit _) => true
  | _ => false
  end.

(** Number of halvings a run has performed: one Split is emitted per
    halving. *)
Definition halvings (effs : list Worker.Effect) : nat :=
  List.length (filter is_split effs).

(** Number of application-success answers in a list of answers. *)
Definition answered (trace : list Response) : nat :=
  List.length (filter isSuccessResponse trace).

(** Modelled from the spec: the contract of [getMiddleDate] of the utils
    module, which is not among the sources.  It "returns a timestamp strictly
    between start and end when one exists at the supported time resolution,
    else returns one of the boundaries". *)
Definition middle_contract (getMiddleDate : Timestamp -> Timestamp -> Timestamp)
    : Prop :=
  forall s e,
    ((exists m, s < m < e) -> s < getMiddleDate s e < e) /\
    (~ (exists m, s < m < e) -> getMiddleDate s e = s \/ getMiddleDate s e = e).

(** The Worker after [_release]. *)
Definition released (w : Worker.Worker) : Worker.Worker :=
  {| Worker.busy := false; Worker.data := Worker.data w; Worker.continuation := "" |}.

(** The Worker once [process] has recorded its Block. *)
Definition entered (b : Block) (w : Worker.Worker) : Worker.Worker :=
  {| Worker.busy := true;
     Worker.data :=
       {| Worker.block := Some (Worker.literal b);
          Worker.data_continuation := Worker.data_continuation (Worker.data w) |};
     Worker.continuation := Worker.continuation w |}.

(** The Release events among the effects. *)
Definition releases (effs : list Worker.Effect) : list Block :=
  flat_map
    (fun e => match e with
              | Worker.Emit (Worker.WorkerRelease b) => [b]
              | _ => []
              end) effs.

(** The Blocks of the Split events among the effects. *)
Definition splits (effs : list Worker.Effect) : list Block :=
  flat_map
    (fun e => match e with
              | Worker.Emit (Worker.WorkerSplit b) => [b]
              | _ => []
              end) effs.

(** The batches handed to [this._insert] among the effects. *)
Definition inserts (effs : list Worker.Effect) : list (list Record_) :=
  flat_map
    (fun e => match e with
              | Worker.Insert r => [r]
              | _ => []
              end) effs.

(** The sleeps among the effects. *)
Definition delays (effs : list Worker.Effect) : list Z :=
  flat_map
    (fun e => match e with
              | Worker.Delay ms => [ms]
              | _ => []
              end) effs.

(** [t] lies in the range of one of the Blocks. *)
Definition covers (blocks : list Block) (t : Timestamp) : Prop :=
  Exists (fun b => in_range b t) blocks.

(** An answer that ends the pagination loop: a success with no records or
    with no continuation. *)
Definition final (r : Response) : bool :=
  match r with
  | SuccessResponse _ d =>
      (List.length (Feed.records d) =? 0)%nat
      || negb (truthy_opt (Feed.continuation d))
  | ErrorResponse _ _ => false
  end.

(** The non-empty record pages of the successful answers, in order. *)
Definition pages_of (trace : list Response) : list (list Record_) :=
  flat_map
    (fun r => match r with
              | SuccessResponse _ d =>
                  match Feed.records d with [] => [] | _ :: _ => [Feed.records d] end
              | ErrorResponse _ _ => []
              end) trace.

(** The ascending page of a tick, when its ascending answer is a success. *)
Definition tick_page_ascending (t : Worker.Tick) : Prop :=
  match Worker.tick_asc t with
  | SuccessResponse _ d => ascending (Feed.records d)
  | ErrorResponse _ _ => True
  end.

(** [blocks], listed from the latest range down, tile [lo, hi]: the first
    ends at [hi], each one starts where the next one ends, the last starts at
    [lo], and each is longer than a point. *)
Fixpoint tiles (lo hi : Timestamp) (blocks : list Block) : Prop :=
  match blocks with
  | [] => lo = hi
  | b :: rest =>
      endDate b = hi /\ startDate b < endDate b /\ tiles lo (startDate b) rest
  end.

(** The Block an event carries is the given Block's own: same identifier,
    same contract, no mapping. *)
Definition same_identity (b s : Block) : Prop :=
  id s = id b /\ contract s = contract b /\ mapping s = None.

(** The batches handed to [InsertionService.upsert] among the effects, with
    their datatype. *)
Definition upserts (effs : list Worker.Effect) : list (string * list Record_) :=
  flat_map
    (fun e => match e with
              | Worker.Upsert datatype r => [(datatype, r)]
              | _ => []
              end) effs.

(** The non-empty ascending pages of the ticks, in order. *)
Definition tick_pages (ticks : list Worker.Tick) : list (list Record_) :=
  pages_of (map Worker.tick_asc ticks).

(** Every record of the tick's ascending page is stamped at or after
    [start]. *)
Definition tick_page_from (start : Timestamp) (t : Worker.Tick) : Prop :=
  match Worker.tick_asc t with
  | SuccessResponse _ d => Forall (fun r => start <= updatedAt r) (Feed.records d)
  | ErrorResponse _ _ => True
  end.

(** ** Sample instances, used to run the model on concrete inputs *)

Definition sample_config : Controller.ControllerConfig :=
  {| Controller.chain := "mainnet";
     Controller.apiKey := "key";
     Controller.cfg_mapping := {| type := {| root := "sales"; dataset := "sales" |} |} |}.

Definition rec_at (t : Timestamp) : Record_ := {| updatedAt := t; fields := "" |}.

Definition page (ts : list Timestamp) (cursor : option string) : Response :=
  SuccessResponse 200 {| Feed.records := map rec_at ts; Feed.continuation := cursor |}.

Definition failure : Response :=
  ErrorResponse 500 {| Feed.message := "Internal Server Error" |}.

(** Midpoint by integer halving, the start boundary when the range has no
    interior point. *)
Definition sample_getMiddleDate (s e : Timestamp) : Timestamp :=
  if s + 1 <? e then s + (e - s) / 2 else s.

(** Dense when the sample spans more than the threshold. *)
Definition sample_isHighDensityBlock (sample : list Record_) (threshold : Z) : bool :=
  match oldest sample, newest sample with
  | Some lo, Some hi => threshold <? hi - lo
  | _, _ => false
  end.

(** Seconds since the epoch. *)
Definition sample_parseTimestamp (t : Timestamp) : Z := t / 1000.

Definition sample_block : Block :=
  {| id := "b-1"; startDate := 0; endDate := 1000000; contract := "";
     mapping := Some (Controller.cfg_mapping sample_config) |}.

(** A density predicate that finds every sample too dense. *)
Definition always_dense (sample : list Record_) (threshold : Z) : bool := true.

(** [normalizeParameters] as the Worker binds it; the Worker's parameters
    are strings and integers, whose conversion raises nothing. *)
Definition sample_normalize (params : Params) : string :=
  match Controller.normalizeParameters sample_config params with
  | Ok query => query
  | Throw _ => ""
  end.

(** A tick with a burst: a full ascending page with a cursor, and a
    descending probe far ahead of it. *)
Definition burst_tick : Worker.Tick :=
  {| Worker.tick_asc := page [10; 20; 30] (Some "cur");
     Worker.tick_desc := page [1000000] None;
     Worker.tick_uuid := "u-1" |}.

(** A tick with a cursor but a sparse sample. *)
Definition calm_tick : Worker.Tick :=
  {| Worker.tick_asc := page [10; 20; 30] (Some "cur");
     Worker.tick_desc := page [40] None;
     Worker.tick_uuid := "u-2" |}.

(** A density predicate that finds no sample too dense. *)
Definition never_dense (sample : list Record_) (threshold : Z) : bool := false.

(** [sample_block] restricted to a contract. *)
Definition contract_block : Block :=
  {| id := "b-7"; startDate := 0; endDate := 1000000; contract := "0xabc";
     mapping := None |}.

(** ** Properties of the Controller *)

Lemma append_assoc (a b c : string) : ((a ++ b) ++ c = a ++ (b ++ c))%string.
Proof. induction a as [|ch a IH]; simpl; [reflexivity | now rewrite IH]. Qed.

Lemma concat_cons (sep x : string) (l : list string) :
  String.concat sep (x :: l) =
  (x ++ fold_right (fun y acc => sep ++ y ++ acc) "" l)%string.
Proof.
  revert x. induction l as [|y l IH]; intros x.
  - simpl. induction x as [|ch x IHx]; simpl; [reflexivity | now rewrite <- IHx].
  - change (String.concat sep (x :: y :: l))
      with (x ++ sep ++ String.concat sep (y :: l))%string.
    now rewrite IH.
Qed.

Lemma fold_pairs (pairs : list (string * string)) :
  fold_right (fun y acc => ("&" ++ y ++ acc)%string) ""
    (map (fun kv => (fst kv ++ "=" ++ snd kv)%string) pairs)
  = pairs_text pairs.
Proof.
  induction pairs as [|kv pairs IH]; [reflexivity|].
  cbn [map fold_right pairs_text]. fold (pairs_text pairs).
  rewrite IH. now rewrite !append_assoc.
Qed.

Lemma push_each_texts params :
  forall keys queries,
    Controller.push_each params keys queries =
    match texts_of params keys with
    | Throw e => Throw e
    | Ok texts =>
        Ok (queries
            ++ map (fun kv => (fst kv ++ "=" ++ snd kv)%string) (combine keys texts))%list
    end.
Proof.
  induction keys as [|key keys IH]; intros queries.
  - cbn. now rewrite app_nil_r.
  - cbn [Controller.push_each texts_of].
    destruct (ToString (get params key)) as [text|e]; [|reflexivity].
    rewrite IH. destruct (texts_of params keys) as [texts|e]; [|reflexivity].
    cbn [combine map fst snd]. now rewrite <- app_assoc.
Qed.

(** The query is the fixed part followed by one pair per key of
    [Object.keys], or the first exception a conversion raises. *)
Lemma normalize_equation (config : Controller.ControllerConfig) (params : Params) :
  Controller.normalizeParameters config params =
  match texts_of params (Object_keys params) with
  | Throw e => Throw e
  | Ok texts =>
      Ok ("limit=1000&includeCriteriaMetadata=true&"
          ++ Controller.sortField (root (type (Controller.cfg_mapping config)))
          ++ pairs_text (combine (Object_keys params) texts))%string
  end.
Proof.
  unfold Controller.normalizeParameters. rewrite push_each_texts.
  destruct (texts_of params (Object_keys params)) as [texts|e]; [|reflexivity].
  cbn [app]. rewrite !concat_cons. cbn [fold_right].
  now rewrite fold_pairs.
Qed.

Lemma texts_of_ok params :
  forall keys texts,
    texts_of params keys = Ok texts ->
    Forall2 (fun key text => ToString (get params key) = Ok text) keys texts.
Proof.
  induction keys as [|key keys IH]; intros texts H.
  - cbn in H. injection H as <-. constructor.
  - cbn [texts_of] in H.
    destruct (ToString (get params key)) as [text|e] eqn:Ht; [|discriminate H].
    destruct (texts_of params keys) as [ts|e] eqn:Hts; [|discriminate H].
    injection H as <-. constructor; [exact Ht | now apply IH].
Qed.

Lemma texts_of_throw params :
  forall keys e,
    texts_of params keys = Throw e ->
    Exists (fun key => ToString (get params key) = Throw e) keys.
Proof.
  induction keys as [|key keys IH]; intros e H; [discriminate H|].
  cbn [texts_of] in H.
  destruct (ToString (get params key)) as [text|e'] eqn:Ht.
  - destruct (texts_of params keys) as [ts|e''] eqn:Hts; [discriminate H|].
    injection H as <-. right. now apply IH.
  - injection H as <-. now left.
Qed.

(** *** Objects whose keys are listed as written *)

Lemma existsb_eqb_false (k : string) (seen : list string) :
  ~ In k seen -> existsb (String.eqb k) seen = false.
Proof.
  intros Hn. destruct (existsb (String.eqb k) seen) eqn:He; [|reflexivity].
  apply existsb_exists in He. destruct He as (x & Hin & Hx).
  apply String.eqb_eq in Hx. subst x. contradiction.
Qed.

Lemma own_keys_distinct (params : Params) :
  forall seen,
    NoDup (map fst params) ->
    (forall k, In k (map fst params) -> ~ In k seen) ->
    own_keys seen params = map fst params.
Proof.
  induction params as [|[k v] params IH]; intros seen Hnd Hfresh; [reflexivity|].
  cbn [own_keys map fst] in *. inversion Hnd as [|k' l' Hnotin Hnd']; subst.
  rewrite existsb_eqb_false by (apply Hfresh; now left).
  f_equal. apply IH; [exact Hnd'|].
  intros k' Hin [Heq|Hseen].
  - subst k'. contradiction.
  - apply (Hfresh k'); [now right | exact Hseen].
Qed.

Lemma no_index_keys (keys : list string) :
  Forall (fun k => array_index k = None) keys ->
  flat_map (fun k => match array_index k with Some i => [i] | None => [] end) keys = []
  /\ filter (fun k => match array_index k with Some _ => false | None => true end) keys
     = keys.
Proof.
  induction 1 as [|k keys Hk _ [IH1 IH2]]; [now split|].
  cbn [flat_map filter]. rewrite Hk, IH1, IH2. now split.
Qed.

Lemma Object_keys_plain (params : Params) :
  plain_keys (map fst params) -> Object_keys params = map fst params.
Proof.
  intros [Hnd Hidx]. unfold Object_keys.
  rewrite own_keys_distinct by (auto; intros k _ []).
  destruct (no_index_keys _ Hidx) as [-> ->]. reflexivity.
Qed.

Lemma lookup_absent (params : Params) (key : string) :
  ~ In key (map fst params) -> lookup params key = None.
Proof.
  induction params as [|[k v] params IH]; intros Hn; [reflexivity|].
  cbn [lookup map fst] in *.
  rewrite IH by (intros H; apply Hn; now right).
  destruct (String.eqb_spec k key) as [->|_]; [|reflexivity].
  elim Hn. now left.
Qed.

Lemma get_distinct (before after : Params) (k : string) (v : JsValue) :
  NoDup (map fst (before ++ (k, v) :: after)%list) ->
  get (before ++ (k, v) :: after)%list k = v.
Proof.
  unfold get. induction before as [|[k0 v0] before IH]; intros Hnd.
  - cbn [app lookup map fst] in *. inversion Hnd as [|k' l' Hnotin _]; subst.
    rewrite lookup_absent by exact Hnotin. now rewrite String.eqb_refl.
  - cbn [app lookup map fst] in *. inversion Hnd as [|k' l' Hnotin Hnd']; subst.
    specialize (IH Hnd').
    destruct (lookup (before ++ (k, v) :: after)%list k) as [v'|]; [exact IH|].
    destruct (String.eqb_spec k0 k) as [->|_]; [|exact IH].
    elim Hnotin. rewrite map_app. apply in_or_app. right. now left.
Qed.

(** With distinct keys the texts are those of the values in the order
    written. *)
Lemma texts_of_distinct (before : Params) :
  forall after texts,
    NoDup (map fst (before ++ after)%list) ->
    map verbatim (map snd after) = map Some texts ->
    texts_of (before ++ after)%list (map fst after) = Ok texts.
Proof.
  intros after. revert before.
  induction after as [|[k v] after IH]; intros before texts Hnd Hv.
  - destruct texts; [reflexivity | discriminate Hv].
  - destruct texts as [|t texts]; [discriminate Hv|].
    cbn [map fst snd] in Hv. injection Hv as Ht Hts.
    cbn [map fst texts_of]. rewrite (get_distinct before after k v Hnd).
    assert (Hconv : ToString v = Ok t).
    { destruct v; try discriminate Ht; cbn [verbatim] in Ht.
      - now injection Ht as <-.
      - cbn [ToString]. unfold JsNumber.toString.
        destruct (Z.abs n <=? 2 ^ 53); [|discriminate Ht].
        injection Ht as <-. reflexivity. }
    rewrite Hconv.
    specialize (IH (before ++ [(k, v)])%list texts).
    rewrite <- app_assoc in IH. cbn [app] in IH.
    now rewrite IH.
Qed.

(** Parameters with plain keys and values that "verbatim" covers: the query
    is the fixed part followed by the pairs as written. *)
Lemma normalize_verbatim (config : Controller.ControllerConfig) (params : Params)
    (texts : list string) :
  plain_keys (map fst params) ->
  map verbatim (map snd params) = map Some texts ->
  Controller.normalizeParameters config params =
  Ok ("limit=1000&includeCriteriaMetadata=true&"
      ++ Controller.sortField (root (type (Controller.cfg_mapping config)))
      ++ pairs_text (combine (map fst params) texts))%string.
Proof.
  intros Hplain Hv. rewrite normalize_equation, (Object_keys_plain params Hplain).
  destruct Hplain as [Hnd _].
  pose proof (texts_of_distinct [] params texts Hnd Hv) as Ht.
  cbn [app] in Ht. now rewrite Ht.
Qed.

(** C7. Query normalization.  Whatever the caller's parameters, a query that
    is produced is [limit=1000&includeCriteriaMetadata=true], then the one
    sort-field parameter selected by the root key ([orderBy=updated_at] for
    [sales], [sortBy=updatedAt] otherwise), then one [&key=value] per key in
    the order of [Object.keys], the value being the string the language
    converts it to; no query is produced only when such a conversion raises
    an exception, which is then passed on.  The values are appended verbatim:
    when no key is an array index or written twice, strings contribute their
    own characters and integers up to [2^53] their decimal numeral, pair
    after pair in the order written, with no character escaped. *)
Theorem C7_normalizeParameters_layout :
  forall (config : Controller.ControllerConfig) (params : Params),
    let fixed :=
      ("limit=1000&includeCriteriaMetadata=true&"
       ++ (if (root (type (Controller.cfg_mapping config)) =? "sales")%string
           then "orderBy=updated_at" else "sortBy=updatedAt"))%string in
    (forall query,
        Controller.normalizeParameters config params = Ok query ->
        exists texts,
          Forall2 (fun key text => ToString (get params key) = Ok text)
            (Object_keys params) texts
          /\ query = (fixed ++ pairs_text (combine (Object_keys params) texts))%string)
    /\ (forall e,
           Controller.normalizeParameters config params = Throw e ->
           Exists (fun key => ToString (get params key) = Throw e) (Object_keys params))
    /\ (forall texts,
           plain_keys (map fst params) ->
           map verbatim (map snd params) = map Some texts ->
           Controller.normalizeParameters config params
           = Ok (fixed ++ pairs_text (combine (map fst params) texts))%string).
Proof.
  intros config params fixed.
  assert (Hfixed :
            fixed = ("limit=1000&includeCriteriaMetadata=true&"
                     ++ Controller.sortField
                          (root (type (Controller.cfg_mapping config))))%string).
  { unfold fixed, Controller.sortField.
    now destruct (root (type (Controller.cfg_mapping config)) =? "sales")%string. }
  split; [|split].
  - intros query H. rewrite normalize_equation in H.
    destruct (texts_of params (Object_keys params)) as [texts|e] eqn:Ht;
      [|discriminate H].
    injection H as <-. exists texts. split; [now apply texts_of_ok|].
    rewrite Hfixed. now rewrite !append_assoc.
  - intros e H. rewrite normalize_equation in H.
    destruct (texts_of params (Object_keys params)) as [texts|e'] eqn:Ht;
      [discriminate H|].
    injection H as <-. now apply texts_of_throw.
  - intros texts Hplain Hv.
    rewrite (normalize_verbatim config params texts Hplain Hv), Hfixed.
    now rewrite !append_assoc.
Qed.

Lemma C7_normalizeParameters_layout_witness :
  Controller.normalizeParameters sample_config
    [("contract", JString "0xabc"); ("startTimestamp", JNumber 1672531200);
     ("endTimestamp", JNumber 253402214400); ("sortDirection", JString "asc")]
  = Ok "limit=1000&includeCriteriaMetadata=true&orderBy=updated_at&contract=0xabc&startTimestamp=1672531200&endTimestamp=253402214400&sortDirection=asc".
Proof.
  destruct (C7_normalizeParameters_layout sample_config
              [("contract", JString "0xabc"); ("startTimestamp", JNumber 1672531200);
               ("endTimestamp", JNumber 253402214400); ("sortDirection", JString "asc")])
    as (_ & _ & Hverbatim).
  apply (Hverbatim ["0xabc"; "1672531200"; "253402214400"; "asc"]).
  - split.
    + repeat constructor; cbn; intuition discriminate.
    + repeat constructor.
  - reflexivity.
Defined.

(** The query at values and keys outside the plain case: a Number of
    [10^21] is written in exponent form, a fraction with its shortest
    digits, an array-index key comes first, a key written twice keeps its
    place and takes the later value, and the conversion of a Symbol raises
    a [TypeError]. *)
Lemma normalizeParameters_beyond_plain :
  Controller.normalizeParameters sample_config
    [("endTimestamp", JNumber (10 ^ 21))]
  = Ok "limit=1000&includeCriteriaMetadata=true&orderBy=updated_at&endTimestamp=1e+21"
  /\ Controller.normalizeParameters sample_config
       [("ratio", JFraction 3602879701896397 (-55)); ("flag", JBoolean true);
        ("none", JUndefined)]
     = Ok "limit=1000&includeCriteriaMetadata=true&orderBy=updated_at&ratio=0.1&flag=true&none=undefined"
  /\ Controller.normalizeParameters sample_config
       [("a", JString "v"); ("1", JString "w")]
     = Ok "limit=1000&includeCriteriaMetadata=true&orderBy=updated_at&1=w&a=v"
  /\ Controller.normalizeParameters sample_config
       [("a", JString "1"); ("b", JString "2"); ("a", JString "3")]
     = Ok "limit=1000&includeCriteriaMetadata=true&orderBy=updated_at&a=3&b=2"
  /\ Controller.normalizeParameters sample_config
       [("a", JString "v"); ("s", JSymbol); ("b", JObject (Throw (Thrown "later")))]
     = Throw TypeError.
Proof. repeat split; vm_compute; reflexivity. Qed.

(** [Number::toString] on Numbers of every layout, and its steps on
    integers up to [2^53], where they give the decimal numeral. *)
Lemma Number_toString_layouts :
  JsNumber.toString (10 ^ 21) 0 = "1e+21"
  /\ JsNumber.toString (10 ^ 21 - 1) 0 = "1e+21"
  /\ JsNumber.toString 123456789012345678901234567890 0 = "1.2345678901234568e+29"
  /\ JsNumber.toString (2 ^ 60) 0 = "1152921504606847000"
  /\ JsNumber.toString (2 ^ 53 + 1) 0 = "9007199254740992"
  /\ JsNumber.toString 3 (-1) = "1.5"
  /\ JsNumber.toString 5404319552844596 (-54) = "0.30000000000000004"
  /\ JsNumber.toString 1 (-20) = "9.5367431640625e-7"
  /\ JsNumber.toString 1 (-1074) = "5e-324"
  /\ JsNumber.toString (2 ^ 53 - 1) 971 = "1.7976931348623157e+308"
  /\ JsNumber.toString (2 ^ 53) 971 = "Infinity"
  /\ JsNumber.toString (-1) (-2000) = "0"
  /\ Forall (fun n => JsNumber.toString_steps n 0 = decimal n)
       [0; 1; 10; 1000; 123456789; 1672531200; 253402214400; 1672531200000;
        -42; 2 ^ 53 - 1; 2 ^ 53; - 2 ^ 53; 9007199254740990; 4503599627370497].
Proof. repeat split; repeat constructor; vm_compute; reflexivity. Qed.

Lemma js_index_last_nil {A : Type} :
  js_index (@nil A) (Z.of_nat (List.length (@nil A)) - 1) = None.
Proof. reflexivity. Qed.

Lemma last_cons {A : Type} (l : list A) :
  forall x d, last (x :: l) d = last l x.
Proof.
  induction l as [|y l IH]; intros x d; [reflexivity|].
  change (last (x :: y :: l) d) with (last (y :: l) d).
  now rewrite !IH.
Qed.

Lemma nth_error_length {A : Type} (l : list A) :
  forall x, nth_error (x :: l) (List.length l) = Some (last l x).
Proof.
  induction l as [|y l IH]; intros x; [reflexivity|].
  cbn [List.length nth_error]. rewrite IH. now rewrite last_cons.
Qed.

Lemma js_index_last_cons {A : Type} (x : A) (l : list A) :
  js_index (x :: l) (Z.of_nat (List.length (x :: l)) - 1) = Some (last (x :: l) x).
Proof.
  unfold js_index.
  replace (Z.of_nat (List.length (x :: l)) - 1) with (Z.of_nat (List.length l))
    by (cbn [List.length]; lia).
  destruct (Z.ltb_spec (Z.of_nat (List.length l)) 0) as [H|_]; [lia|].
  rewrite Nat2Z.id, last_cons. apply nth_error_length.
Qed.

Lemma last_updatedAt_nil : Controller.last_updatedAt [] = Throw TypeError.
Proof. reflexivity. Qed.

Lemma last_updatedAt_cons (r : Record_) (page : list Record_) :
  Controller.last_updatedAt (r :: page) = Ok (updatedAt (last (r :: page) r)).
Proof. unfold Controller.last_updatedAt. now rewrite js_index_last_cons. Qed.

(** C8. With both probes successful and both record arrays empty, the
    construction of the initial Block reads index [length - 1 = -1] of an
    empty array and fails on the [undefined] it gets; with both probes
    successful a Block is produced exactly when both pages are non-empty. *)
Theorem C8_bootstrap_needs_nonempty_pages :
  forall (config : Controller.ControllerConfig),
    (forall s0 c0 s1 c1 uuid,
        Controller._getInitialBlock config
          (SuccessResponse s0 {| Feed.records := []; Feed.continuation := c0 |})
          (SuccessResponse s1 {| Feed.records := []; Feed.continuation := c1 |})
          uuid = Throw TypeError)
    /\ js_index (@nil Record_) (Z.of_nat (List.length (@nil Record_)) - 1) = None
    /\ (forall s0 d0 s1 d1 uuid,
           (exists b,
               Controller._getInitialBlock config
                 (SuccessResponse s0 d0) (SuccessResponse s1 d1) uuid = Ok b)
           <-> (Feed.records d0 <> [] /\ Feed.records d1 <> [])).
Proof.
  intros config. split; [reflexivity|]. split; [reflexivity|].
  intros s0 d0 s1 d1 uuid. unfold Controller._getInitialBlock.
  destruct (Feed.records d0) as [|r0 p0].
  - rewrite last_updatedAt_nil. split.
    + intros [b Hb]. discriminate.
    + intros [H _]. now elim H.
  - rewrite last_updatedAt_cons.
    destruct (Feed.records d1) as [|r1 p1].
    + rewrite last_updatedAt_nil. split.
      * intros [b Hb]. discriminate.
      * intros [_ H]. now elim H.
    + rewrite last_updatedAt_cons. split.
      * intros _. split; discriminate.
      * intros _. eexists. reflexivity.
Qed.

(** On non-empty pages the initial Block runs from the last record of the
    ascending page to the last record of the descending page. *)
Lemma getInitialBlock_last_records :
  forall config s0 c0 r0 p0 s1 c1 r1 p1 uuid,
    Controller._getInitialBlock config
      (SuccessResponse s0 {| Feed.records := r0 :: p0; Feed.continuation := c0 |})
      (SuccessResponse s1 {| Feed.records := r1 :: p1; Feed.continuation := c1 |})
      uuid
    = Ok {| id := uuid;
            startDate := updatedAt (last (r0 :: p0) r0);
            endDate := updatedAt (last (r1 :: p1) r1);
            contract := "";
            mapping := Some (Controller.cfg_mapping config) |}.
Proof.
  intros. unfold Controller._getInitialBlock. cbn [Feed.records].
  now rewrite !last_updatedAt_cons.
Qed.

(** C1. On the two-record pages [1000, 2000] (ascending) and [9000, 8000]
    (descending) the initial Block is [2000, 8000]: each bound is the last
    record of its page, whereas the oldest record of the ascending page is
    1000 and the newest record overall is 9000.  On a feed of just the two
    records 1000 and 2000 the initial Block is [2000, 1000], its start after
    its end. *)
Theorem C1_initial_block_on_two_record_pages :
  ascending (map rec_at [1000; 2000]) /\
  descending (map rec_at [9000; 8000]) /\
  oldest (map rec_at [1000; 2000]) = Some 1000 /\
  newest (map rec_at [9000; 8000]) = Some 9000 /\
  Controller._getInitialBlock sample_config
    (page [1000; 2000] (Some "c1")) (page [9000; 8000] (Some "c2")) "uuid"
  = Ok {| id := "uuid"; startDate := 2000; endDate := 8000; contract := "";
          mapping := Some (Controller.cfg_mapping sample_config) |} /\
  Controller._getInitialBlock sample_config
    (page [1000; 2000] None) (page [2000; 1000] None) "uuid"
  = Ok {| id := "uuid"; startDate := 2000; endDate := 1000; contract := "";
          mapping := Some (Controller.cfg_mapping sample_config) |}.
Proof.
  repeat split; try reflexivity; cbn; lia.
Qed.

(** ** Properties of the Worker *)

Section WorkerFacts.

Variable _normalize : Params -> string.
Variable _datatype : string.
Variable parseTimestamp : Timestamp -> Z.
Variable isHighDensityBlock : list Record_ -> Z -> bool.
Variable getMiddleDate : Timestamp -> Timestamp -> Timestamp.

Local Abbreviation grain_respond := (Worker.grain_respond isHighDensityBlock getMiddleDate).
Local Abbreviation grain :=
  (Worker.grain _normalize parseTimestamp isHighDensityBlock getMiddleDate).
Local Abbreviation paginate := (Worker.paginate _normalize parseTimestamp).
Local Abbreviation process :=
  (Worker.process _normalize parseTimestamp isHighDensityBlock getMiddleDate).
Local Abbreviation bounds_query := (Worker.bounds_query _normalize parseTimestamp).
Local Abbreviation page_query := (Worker.page_query _normalize parseTimestamp).
Local Abbreviation upkeep_tick :=
  (Worker.upkeep_tick _normalize _datatype parseTimestamp isHighDensityBlock).
Local Abbreviation upkeep_loop :=
  (Worker.upkeep_loop _normalize _datatype parseTimestamp isHighDensityBlock).
Local Abbreviation upkeep :=
  (Worker.upkeep _normalize _datatype parseTimestamp isHighDensityBlock).

Lemma release_run (b : Block) (w : Worker.Worker) :
  Worker._release b w = (tt, released w, [Worker.Emit (Worker.WorkerRelease b)]).
Proof. reflexivity. Qed.

Lemma grain_respond_failure ascRecords b st d w :
  grain_respond ascRecords b (ErrorResponse st d) w
  = ((Worker.Continue, b), w, [Worker.Delay 5000]).
Proof. reflexivity. Qed.

Lemma grain_respond_break ascRecords b st d w :
  isHighDensityBlock (ascRecords ++ Feed.records d) 300000 = false ->
  grain_respond ascRecords b (SuccessResponse st d) w
  = ((Worker.Break, b), w, [Worker.Insert (ascRecords ++ Feed.records d)]).
Proof.
  intros H. unfold Worker.grain_respond, Worker.bind. cbn. now rewrite H.
Qed.

Lemma grain_respond_collapse ascRecords b st d w :
  isHighDensityBlock (ascRecords ++ Feed.records d) 300000 = true ->
  getMiddleDate (startDate b) (endDate b) = startDate b \/
  getMiddleDate (startDate b) (endDate b) = endDate b ->
  grain_respond ascRecords b (SuccessResponse st d) w
  = ((Worker.Return, b), released w,
     [Worker.Insert (ascRecords ++ Feed.records d);
      Worker.Emit (Worker.WorkerRelease (Worker.literal b))]).
Proof.
  intros H Hm. unfold Worker.grain_respond, Worker.bind. cbn. rewrite H.
  replace ((getMiddleDate (startDate b) (endDate b) =? startDate b)
           || (getMiddleDate (startDate b) (endDate b) =? endDate b)) with true.
  - reflexivity.
  - symmetry. apply orb_true_iff. rewrite !Z.eqb_eq. exact Hm.
Qed.

Lemma grain_respond_split ascRecords b st d w :
  isHighDensityBlock (ascRecords ++ Feed.records d) 300000 = true ->
  getMiddleDate (startDate b) (endDate b) <> startDate b ->
  getMiddleDate (startDate b) (endDate b) <> endDate b ->
  grain_respond ascRecords b (SuccessResponse st d) w
  = ((Worker.Continue,
      Worker.with_endDate b (getMiddleDate (startDate b) (endDate b))),
     w,
     [Worker.Insert (ascRecords ++ Feed.records d);
      Worker.Emit
        (Worker.WorkerSplit
           {| startDate := getMiddleDate (startDate b) (endDate b);
              endDate := endDate b; id := id b; contract := contract b;
              mapping := None |})]).
Proof.
  intros H Hs He. unfold Worker.grain_respond, Worker.bind. cbn. rewrite H.
  apply Z.eqb_neq in Hs, He. rewrite Hs, He. reflexivity.
Qed.

(** One turn of the graining loop, unfolded. *)
Lemma grain_cons ascRecords b r trace w :
  grain ascRecords b (r :: trace) w =
  let '(cb, w1, e1) := grain_respond ascRecords b r w in
  match fst cb with
  | Worker.Continue =>
      let '(x, w2, e2) := grain ascRecords (snd cb) trace w1 in
      (x, w2, Worker.Request (bounds_query b "desc") :: e1 ++ e2)
  | Worker.Break =>
      (Worker.Grained (snd cb) trace, w1,
       Worker.Request (bounds_query b "desc") :: e1)
  | Worker.Return =>
      (Worker.GrainReleased, w1, Worker.Request (bounds_query b "desc") :: e1)
  end.
Proof.
  cbn [Worker.grain]. unfold Worker.bind at 1. cbn [Worker._request Worker.tell].
  unfold Worker.bind at 1.
  destruct (grain_respond ascRecords b r w) as [[[c b'] w1] e1]. cbn [fst snd].
  destruct c.
  - destruct (grain ascRecords b' trace w1) as [[x w2] e2]. reflexivity.
  - cbn. now rewrite app_nil_r.
  - cbn. now rewrite app_nil_r.
Qed.

Lemma grain_nil ascRecords b w :
  grain ascRecords b [] w
  = (Worker.GrainPending, w, [Worker.Request (bounds_query b "desc")]).
Proof. reflexivity. Qed.

(** C2. A graining split preserves the range.  When the descending probe
    succeeds, the sample is too dense and the midpoint lies strictly inside
    [startDate, endDate], the iteration emits a Split for
    [midpoint, endDate] and goes on with [startDate, midpoint]; the two
    ranges together cover exactly the original range, they share the
    midpoint and nothing else, and each has its start before its end. *)
Theorem C2_split_preserves_range :
  forall ascRecords (b : Block) st d w,
    startDate b <= endDate b ->
    isHighDensityBlock (ascRecords ++ Feed.records d) 300000 = true ->
    startDate b < getMiddleDate (startDate b) (endDate b) < endDate b ->
    let midpoint := getMiddleDate (startDate b) (endDate b) in
    let split := {| startDate := midpoint; endDate := endDate b; id := id b;
                    contract := contract b; mapping := None |} in
    let owned := Worker.with_endDate b midpoint in
    grain_respond ascRecords b (SuccessResponse st d) w
    = ((Worker.Continue, owned), w,
       [Worker.Insert (ascRecords ++ Feed.records d);
        Worker.Emit (Worker.WorkerSplit split)])
    /\ (forall t, in_range b t <-> in_range owned t \/ in_range split t)
    /\ (forall t, in_range owned t /\ in_range split t <-> t = midpoint)
    /\ startDate owned <= endDate owned
    /\ startDate split <= endDate split.
Proof.
  intros ascRecords b st d w Hle Hdense Hmid midpoint split owned.
  split.
  - apply grain_respond_split; [exact Hdense | lia | lia].
  - unfold in_range, owned, split, midpoint. cbn [startDate endDate Worker.with_endDate].
    repeat split; intros; lia.
Qed.

Lemma contract_cases (s e : Timestamp) :
  middle_contract getMiddleDate ->
  s < getMiddleDate s e < e \/ getMiddleDate s e = s \/ getMiddleDate s e = e.
Proof.
  intros Hc. destruct (Hc s e) as [Hin Hout].
  destruct (Z_lt_dec (s + 1) e) as [Hlt|Hge].
  - left. apply Hin. exists (s + 1). lia.
  - right. apply Hout. intros [m Hm]. lia.
Qed.

Lemma graining_bound :
  middle_contract getMiddleDate ->
  forall ascRecords trace b w,
    Z.of_nat (halvings (snd (grain ascRecords b trace w)))
      <= Z.max 0 (endDate b - startDate b - 1)
    /\ (Z.max 1 (endDate b - startDate b) <= Z.of_nat (answered trace) ->
         fst (fst (grain ascRecords b trace w)) <> Worker.GrainPending).
Proof.
  intros Hc ascRecords trace.
  induction trace as [|r trace IH]; intros b w.
  - rewrite grain_nil. cbn. split; lia.
  - rewrite grain_cons. destruct r as [st d|st d].
    + destruct (isHighDensityBlock (ascRecords ++ Feed.records d) 300000) eqn:Hd.
      * destruct (Z.eq_dec (getMiddleDate (startDate b) (endDate b)) (startDate b))
          as [Hs|Hs];
        [|destruct (Z.eq_dec (getMiddleDate (startDate b) (endDate b)) (endDate b))
          as [He|He]].
        -- rewrite grain_respond_collapse by auto. cbn. split; [lia | discriminate].
        -- rewrite grain_respond_collapse by auto. cbn. split; [lia | discriminate].
        -- rewrite grain_respond_split by auto. cbn [fst snd].
           destruct (contract_cases (startDate b) (endDate b) Hc) as [Hin|[?|?]];
             try contradiction.
           specialize (IH (Worker.with_endDate b (getMiddleDate (startDate b) (endDate b))) w).
           destruct (grain ascRecords _ trace w) as [[x w2] e2].
           cbn [fst snd Worker.with_endDate startDate endDate] in *.
           unfold halvings, answered in *.
           cbn [filter is_split isSuccessResponse app List.length] in *.
           destruct IH as [IH1 IH2]. split; [lia|].
           intros Ha. apply IH2. lia.
      * rewrite grain_respond_break by auto. cbn. split; [lia | discriminate].
    + rewrite grain_respond_failure. cbn [fst snd].
      specialize (IH b w).
      destruct (grain ascRecords b trace w) as [[x w2] e2].
      cbn [fst snd] in *. unfold halvings, answered in *.
      cbn [filter is_split isSuccessResponse app List.length] in *.
      exact IH.
Qed.

(** C3. Graining terminates.  Under the contract of [getMiddleDate], a run of
    the graining loop on the range [startDate, endDate] performs at most
    [endDate - startDate - 1] halvings, and once the environment has given
    [max 1 (endDate - startDate)] successful answers the loop has been left,
    either to pagination (acceptable density) or through a Release (boundary
    collapse).  Failed answers are retried and do not count. *)
Theorem C3_graining_terminates :
  middle_contract getMiddleDate ->
  forall ascRecords (b : Block) trace w,
    Z.of_nat (halvings (snd (grain ascRecords b trace w)))
      <= Z.max 0 (endDate b - startDate b - 1)
    /\ (Z.max 1 (endDate b - startDate b) <= Z.of_nat (answered trace) ->
         (exists b' rest,
             fst (fst (grain ascRecords b trace w)) = Worker.Grained b' rest)
         \/ fst (fst (grain ascRecords b trace w)) = Worker.GrainReleased).
Proof.
  intros Hc ascRecords b trace w.
  destruct (graining_bound Hc ascRecords trace b w) as [Hh Hx].
  split; [exact Hh|].
  intros Ha. specialize (Hx Ha).
  destruct (fst (fst (grain ascRecords b trace w))) as [b' rest| |].
  - left. now exists b', rest.
  - now right.
  - now elim Hx.
Qed.

(** *** Pagination *)

Lemma paginate_nil b w :
  paginate b [] w
  = (Worker.PagePending, w, [Worker.Request (page_query (Worker.continuation w) b)]).
Proof. reflexivity. Qed.

Lemma paginate_cons b r trace w :
  paginate b (r :: trace) w =
  let '(c, w1, e1) := Worker.page_respond r w in
  match c with
  | Worker.Continue =>
      let '(x, w2, e2) := paginate b trace w1 in
      (x, w2, Worker.Request (page_query (Worker.continuation w) b) :: e1 ++ e2)
  | _ =>
      (Worker.Paged trace, w1,
       Worker.Request (page_query (Worker.continuation w) b) :: e1)
  end.
Proof.
  cbn [Worker.paginate]. unfold Worker.bind at 1. cbn [Worker.this].
  unfold Worker.bind at 1. cbn [Worker._request Worker.tell].
  unfold Worker.bind at 1.
  destruct (Worker.page_respond r w) as [[c w1] e1].
  destruct c.
  - destruct (paginate b trace w1) as [[x w2] e2]. reflexivity.
  - cbn. now rewrite app_nil_r.
  - cbn. now rewrite app_nil_r.
Qed.

Lemma page_respond_failure res w :
  isSuccessResponse res = false ->
  Worker.page_respond res w = (Worker.Continue, w, [Worker.Delay 5000]).
Proof. destruct res; [discriminate | reflexivity]. Qed.

Lemma page_respond_cursor res w :
  Worker.continuation (snd (fst (Worker.page_respond res w))) <> Worker.continuation w ->
  exists st d c,
    res = SuccessResponse st d /\ Feed.records d <> [] /\
    Feed.continuation d = Some c /\ truthy c = true /\
    Worker.continuation (snd (fst (Worker.page_respond res w))) = c.
Proof.
  destruct res as [st d|st d]; [|intros H; now elim H].
  unfold Worker.page_respond, Worker.bind.
  destruct (Feed.records d) as [|r rs] eqn:Hr; [intros H; now elim H|].
  cbn [List.length Nat.eqb Worker._insert Worker.tell].
  destruct (Feed.continuation d) as [c|] eqn:Hc; [|intros H; now elim H].
  destruct (truthy c) eqn:Ht; [|intros H; now elim H].
  intros _. exists st, d, c. rewrite Hr, Hc.
  repeat split; try reflexivity; try assumption; discriminate.
Qed.

Lemma paginate_failures b rest w :
  forall fails,
    Forall (fun r => isSuccessResponse r = false) fails ->
    paginate b (fails ++ rest) w =
    (fst (paginate b rest w),
     (flat_map
        (fun _ => [Worker.Request (page_query (Worker.continuation w) b);
                   Worker.Delay 5000]) fails
      ++ snd (paginate b rest w))%list).
Proof.
  induction fails as [|r fails IH]; intros Hf.
  - cbn. now destruct (paginate b rest w) as [[x w'] e].
  - inversion Hf as [|r' l' Hr Hrest]; subst.
    cbn [app]. rewrite paginate_cons, (page_respond_failure r w Hr).
    rewrite (IH Hrest).
    destruct (paginate b rest w) as [[x w'] e]. reflexivity.
Qed.

(** C4. Failures never advance the cursor during pagination.  A failed
    answer leaves the Worker as it was, costs one 5000 ms sleep and makes the
    loop go round again; the cursor differs after an answer only if the
    answer was a success carrying a continuation, which it then holds; and a
    run of failures amounts to issuing the very same request, each followed
    by the 5000 ms sleep, once per failure, before the loop goes on from the
    unchanged Worker. *)
Theorem C4_failures_keep_cursor :
  (forall res w,
      isSuccessResponse res = false ->
      Worker.page_respond res w = (Worker.Continue, w, [Worker.Delay 5000]))
  /\ (forall res w,
         Worker.continuation (snd (fst (Worker.page_respond res w)))
           <> Worker.continuation w ->
         exists st d c,
           res = SuccessResponse st d /\ isSuccessResponse res = true /\
           Feed.continuation d = Some c /\ truthy c = true /\
           Worker.continuation (snd (fst (Worker.page_respond res w))) = c)
  /\ (forall b fails rest w,
         Forall (fun r => isSuccessResponse r = false) fails ->
         paginate b (fails ++ rest) w =
         (fst (paginate b rest w),
          (flat_map
             (fun _ => [Worker.Request (page_query (Worker.continuation w) b);
                        Worker.Delay 5000]) fails
           ++ snd (paginate b rest w))%list)).
Proof.
  split; [exact page_respond_failure|]. split.
  - intros res w H.
    destruct (page_respond_cursor res w H) as (st & d & c & -> & _ & Hc & Ht & Hw).
    exists st, d, c. repeat split; assumption.
  - intros b fails rest w. apply paginate_failures.
Qed.

(** *** The whole of [process] *)

Lemma grain_respond_data ascRecords b r w :
  Worker.data (snd (fst (grain_respond ascRecords b r w))) = Worker.data w.
Proof.
  destruct r as [st d|st d]; [|reflexivity].
  unfold Worker.grain_respond, Worker.bind. cbn.
  destruct (isHighDensityBlock _ _); [|reflexivity].
  destruct (_ || _); reflexivity.
Qed.

Lemma grain_data ascRecords trace :
  forall b w, Worker.data (snd (fst (grain ascRecords b trace w))) = Worker.data w.
Proof.
  induction trace as [|r trace IH]; intros b w; [reflexivity|].
  rewrite grain_cons.
  pose proof (grain_respond_data ascRecords b r w) as Hr.
  destruct (grain_respond ascRecords b r w) as [[[c b'] w1] e1].
  cbn [fst snd] in *. destruct c; cbn [fst snd]; try exact Hr.
  specialize (IH b' w1).
  destruct (grain ascRecords b' trace w1) as [[x w2] e2].
  cbn [fst snd] in *. congruence.
Qed.

Lemma page_respond_data r w :
  Worker.data (snd (fst (Worker.page_respond r w))) = Worker.data w.
Proof.
  destruct r as [st d|st d]; [|reflexivity].
  unfold Worker.page_respond, Worker.bind.
  destruct (List.length (Feed.records d) =? 0)%nat; [reflexivity|].
  cbn. destruct (Feed.continuation d) as [c|]; [|reflexivity].
  destruct (truthy c); reflexivity.
Qed.

Lemma paginate_data trace :
  forall b w, Worker.data (snd (fst (paginate b trace w))) = Worker.data w.
Proof.
  induction trace as [|r trace IH]; intros b w; [reflexivity|].
  rewrite paginate_cons.
  pose proof (page_respond_data r w) as Hr.
  destruct (Worker.page_respond r w) as [[c w1] e1].
  cbn [fst snd] in *. destruct c; cbn [fst snd]; try exact Hr.
  specialize (IH b w1).
  destruct (paginate b trace w1) as [[x w2] e2].
  cbn [fst snd] in *. congruence.
Qed.

Lemma literal_idem b : Worker.literal (Worker.literal b) = Worker.literal b.
Proof. reflexivity. Qed.

Lemma process_nil b w :
  process b [] w = (Worker.Awaiting, entered b w, [Worker.Request (bounds_query b "asc")]).
Proof. reflexivity. Qed.

Lemma process_failure b st d trace w :
  process b (ErrorResponse st d :: trace) w =
  let '(x, w', e) := process (Worker.literal b) trace (entered b w) in
  (x, w', Worker.Request (bounds_query b "asc") :: Worker.Delay 5000 :: e).
Proof.
  cbn [Worker.process]. unfold Worker.bind. cbn.
  fold (entered b w).
  destruct (process (Worker.literal b) trace (entered b w)) as [[x w'] e].
  reflexivity.
Qed.

Lemma process_empty b st c trace w :
  process b (SuccessResponse st {| Feed.records := []; Feed.continuation := c |} :: trace) w
  = (Worker.Returned, released (entered b w),
     [Worker.Request (bounds_query b "asc");
      Worker.Emit (Worker.WorkerRelease (Worker.literal b))]).
Proof. reflexivity. Qed.

Lemma process_grain b st d trace w :
  Feed.records d <> [] ->
  process b (SuccessResponse st d :: trace) w =
  let '(g, w1, e1) := grain (Feed.records d) (Worker.literal b) trace (entered b w) in
  match g with
  | Worker.GrainPending =>
      (Worker.Awaiting, w1, Worker.Request (bounds_query b "asc") :: e1)
  | Worker.GrainReleased =>
      (Worker.Returned, w1, Worker.Request (bounds_query b "asc") :: e1)
  | Worker.Grained b' rest =>
      let '(p, w2, e2) := paginate b' rest w1 in
      match p with
      | Worker.PagePending =>
          (Worker.Awaiting, w2, Worker.Request (bounds_query b "asc") :: e1 ++ e2)
      | Worker.Paged _ =>
          (Worker.Returned, released w2,
           Worker.Request (bounds_query b "asc")
             :: e1 ++ e2 ++ [Worker.Emit (Worker.WorkerRelease (Worker.literal b'))])
      end
  end.
Proof.
  intros Hne. cbn [Worker.process].
  destruct (Feed.records d) as [|r rs] eqn:Hr; [now elim Hne|].
  cbn [List.length Nat.eqb].
  unfold Worker.bind at 1. cbn [Worker.set_busy].
  unfold Worker.bind at 1. cbn [Worker.set_data_block].
  unfold Worker.bind at 1. cbn [Worker._request Worker.tell].
  unfold Worker.bind at 1. cbn [Worker.busy Worker.data Worker.continuation].
  fold (entered b w).
  destruct (grain (r :: rs) (Worker.literal b) trace (entered b w)) as [[g w1] e1].
  destruct g as [b' rest| |].
  - unfold Worker.bind at 1.
    destruct (paginate b' rest w1) as [[p w2] e2].
    destruct p; cbn; rewrite ?app_nil_r; reflexivity.
  - cbn. now rewrite app_nil_r.
  - cbn. now rewrite app_nil_r.
Qed.

Lemma process_block trace :
  forall b w,
    Worker.block (Worker.data (snd (fst (process b trace w)))) = Some (Worker.literal b).
Proof.
  induction trace as [|r trace IH]; intros b w; [reflexivity|].
  destruct r as [st d|st d].
  - destruct (Feed.records d) as [|r rs] eqn:Hr.
    + destruct d as [recs c]. cbn in Hr. subst recs. reflexivity.
    + rewrite process_grain by (rewrite Hr; discriminate). rewrite Hr.
      pose proof (grain_data (r :: rs) trace (Worker.literal b) (entered b w)) as Hg.
      destruct (grain (r :: rs) (Worker.literal b) trace (entered b w)) as [[g w1] e1].
      cbn [fst snd] in Hg.
      destruct g as [b' rest| |]; cbn [fst snd]; try (rewrite Hg; reflexivity).
      pose proof (paginate_data rest b' w1) as Hp.
      destruct (paginate b' rest w1) as [[p w2] e2]. cbn [fst snd] in Hp.
      destruct p; cbn [fst snd released Worker.data]; rewrite Hp, Hg; reflexivity.
  - rewrite process_failure. specialize (IH (Worker.literal b) (entered b w)).
    destruct (process (Worker.literal b) trace (entered b w)) as [[x w'] e].
    cbn [fst snd] in *. exact IH.
Qed.

(** C6. A Block whose ascending probe succeeds with zero records is released
    at once: the call returns with [busy = false] after its single probe
    request and the Release event for that Block, without a descending probe,
    a pagination request or an insertion. *)
Theorem C6_empty_probe_releases :
  forall (b : Block) st c trace w,
    process b
      (SuccessResponse st {| Feed.records := []; Feed.continuation := c |} :: trace) w
    = (Worker.Returned,
       {| Worker.busy := false;
          Worker.data :=
            {| Worker.block := Some (Worker.literal b);
               Worker.data_continuation := Worker.data_continuation (Worker.data w) |};
          Worker.continuation := "" |},
       [Worker.Request (bounds_query b "asc");
        Worker.Emit (Worker.WorkerRelease (Worker.literal b))]).
Proof. intros. reflexivity. Qed.

(** *** The tail loop *)

(** Settles which requests occur in a tick's list of effects once the
    branch taken is known. *)
Ltac tick_requests :=
  let H := fresh "H" in
  cbn [snd app]; intros H; cbn [In] in H;
  repeat (destruct H as [H|H]; try discriminate H;
          try (injection H as <-; auto));
  try contradiction.

Lemma upkeep_tick_worker date startDate t w :
  snd (fst (upkeep_tick date startDate t w)) = w.
Proof.
  unfold Worker.upkeep_tick, Worker.bind. cbn.
  destruct (Worker.tick_asc t) as [sa ascData|sa ascData]; [|reflexivity].
  destruct (Feed.records ascData) as [|first more]; [reflexivity|].
  cbn. destruct (truthy_opt (Feed.continuation ascData)); [|reflexivity].
  cbn. destruct (Worker.tick_desc t) as [sd descData|sd descData]; [|reflexivity].
  destruct (isHighDensityBlock _ _); reflexivity.
Qed.

Lemma upkeep_loop_cons date startDate t ticks w :
  upkeep_loop date startDate (t :: ticks) w =
  let '(x, w', e) :=
    upkeep_loop date (fst (fst (upkeep_tick date startDate t w))) ticks w in
  (x, w', (snd (upkeep_tick date startDate t w) ++ e)%list).
Proof.
  cbn [Worker.upkeep_loop]. unfold Worker.bind at 1.
  pose proof (upkeep_tick_worker date startDate t w) as Hw.
  destruct (upkeep_tick date startDate t w) as [[sd' w1] e1].
  cbn [fst snd] in *. subst w1. reflexivity.
Qed.

Lemma upkeep_loop_worker date ticks :
  forall startDate w, snd (fst (upkeep_loop date startDate ticks w)) = w.
Proof.
  induction ticks as [|t ticks IH]; intros startDate w; [reflexivity|].
  rewrite upkeep_loop_cons.
  specialize (IH (fst (fst (upkeep_tick date startDate t w))) w).
  destruct (upkeep_loop date _ ticks w) as [[x w'] e]. exact IH.
Qed.

Lemma upkeep_tick_dense date startDate t w sa first more cursor sd descData :
  Worker.tick_asc t =
    SuccessResponse sa
      {| Feed.records := first :: more; Feed.continuation := Some cursor |} ->
  truthy cursor = true ->
  Worker.tick_desc t = SuccessResponse sd descData ->
  upkeep_tick date startDate t w =
  (if isHighDensityBlock ((first :: more) ++ Feed.records descData) 300000
   then updatedAt (last (first :: more) first) else startDate,
   w,
   [Worker.Delay 5000;
    Worker.Request
      (_normalize
         (Worker.spread_if "continuation" (Worker.continuation w) ++
          [("sortDirection", JString "asc");
           ("startTimestamp", JNumber (parseTimestamp startDate));
           ("endTimestamp", JNumber (parseTimestamp Worker.far_future))]));
    Worker.Upsert _datatype (first :: more);
    Worker.Request
      (_normalize
         (Worker.spread_if "continuation" (Worker.continuation w) ++
          [("sortDirection", JString "desc");
           ("startTimestamp", JNumber (parseTimestamp date));
           ("endTimestamp", JNumber 253402214400)]))]
   ++ (if isHighDensityBlock ((first :: more) ++ Feed.records descData) 300000
       then [Worker.Emit
               (Worker.WorkerSplit
                  {| startDate := updatedAt first;
                     endDate := updatedAt (last (first :: more) first);
                     id := Worker.tick_uuid t; contract := ""; mapping := None |})]
       else []))%list.
Proof.
  intros Ha Hc Hd. unfold Worker.upkeep_tick, Worker.bind.
  rewrite Ha, Hd. cbn [Feed.records Feed.continuation truthy_opt].
  rewrite Hc. cbn [negb].
  cbn [Worker.delay Worker.tell Worker.this Worker._request Worker.ret].
  destruct (isHighDensityBlock _ _); reflexivity.
Qed.

(** C5. Tail burst delegation.  In a tick whose ascending fetch succeeds with
    a non-empty page and a continuation cursor and whose descending probe
    succeeds: if the combined sample is dense, exactly one Split is emitted,
    it covers the ascending page from its first to its last record's stamp,
    and the next tick starts from that last stamp; if it is not dense, no
    Split is emitted and the start position stays where it was. *)
Theorem C5_tail_burst_delegation :
  forall date startDate (t : Worker.Tick) w sa first more cursor sd descData,
    Worker.tick_asc t =
      SuccessResponse sa
        {| Feed.records := first :: more; Feed.continuation := Some cursor |} ->
    truthy cursor = true ->
    Worker.tick_desc t = SuccessResponse sd descData ->
    let lastStamp := updatedAt (last (first :: more) first) in
    let run := upkeep_tick date startDate t w in
    (isHighDensityBlock ((first :: more) ++ Feed.records descData) 300000 = true ->
       filter is_split (snd run) =
         [Worker.Emit
            (Worker.WorkerSplit
               {| startDate := updatedAt first; endDate := lastStamp;
                  id := Worker.tick_uuid t; contract := ""; mapping := None |})]
       /\ fst (fst run) = lastStamp
       /\ forall ticks,
            upkeep_loop date startDate (t :: ticks) w =
            (fst (upkeep_loop date lastStamp ticks w),
             (snd run ++ snd (upkeep_loop date lastStamp ticks w))%list))
    /\ (isHighDensityBlock ((first :: more) ++ Feed.records descData) 300000 = false ->
          filter is_split (snd run) = []
          /\ fst (fst run) = startDate
          /\ forall ticks,
               upkeep_loop date startDate (t :: ticks) w =
               (fst (upkeep_loop date startDate ticks w),
                (snd run ++ snd (upkeep_loop date startDate ticks w))%list)).
Proof.
  intros date startDate t w sa first more cursor sd descData Ha Hc Hd lastStamp run.
  pose proof (upkeep_tick_dense date startDate t w sa first more cursor sd descData
                Ha Hc Hd) as Hrun.
  fold run in Hrun. fold lastStamp in Hrun.
  split; intros Hdense; rewrite Hdense in Hrun.
  - repeat split.
    + rewrite Hrun. reflexivity.
    + rewrite Hrun. reflexivity.
    + intros ticks. rewrite upkeep_loop_cons. fold run.
      replace (fst (fst run)) with lastStamp by (rewrite Hrun; reflexivity).
      now destruct (upkeep_loop date lastStamp ticks w) as [[x w'] e].
  - repeat split.
    + rewrite Hrun. reflexivity.
    + rewrite Hrun. reflexivity.
    + intros ticks. rewrite upkeep_loop_cons. fold run.
      replace (fst (fst run)) with startDate by (rewrite Hrun; reflexivity).
      now destruct (upkeep_loop date startDate ticks w) as [[x w'] e].
Qed.

(** C10. The tail loop never writes the Worker's continuation.  A tick leaves
    the Worker exactly as it found it, whatever the answers (a continuation
    cursor on the ascending answer included), so after any number of ticks
    [continuation] is what it was on entry; every tick opens with the 5000 ms
    sleep and an ascending request built from that unchanged field and from
    the local [startDate]; and every request of a tick is either that
    ascending request or the descending probe, built from the same field. *)
Theorem C10_upkeep_preserves_continuation :
  (forall date startDate t w, snd (fst (upkeep_tick date startDate t w)) = w)
  /\ (forall now ticks w,
         Worker.continuation (snd (fst (upkeep now ticks w))) = Worker.continuation w)
  /\ (forall date startDate t w,
         exists effs,
           snd (upkeep_tick date startDate t w) =
           Worker.Delay 5000
           :: Worker.Request
                (_normalize
                   (Worker.spread_if "continuation" (Worker.continuation w) ++
                    [("sortDirection", JString "asc");
                     ("startTimestamp", JNumber (parseTimestamp startDate));
                     ("endTimestamp", JNumber (parseTimestamp Worker.far_future))])%list)
           :: effs)
  /\ (forall date startDate t w q,
         In (Worker.Request q) (snd (upkeep_tick date startDate t w)) ->
         q = _normalize
               (Worker.spread_if "continuation" (Worker.continuation w) ++
                [("sortDirection", JString "asc");
                 ("startTimestamp", JNumber (parseTimestamp startDate));
                 ("endTimestamp", JNumber (parseTimestamp Worker.far_future))])%list
         \/ q = _normalize
                  (Worker.spread_if "continuation" (Worker.continuation w) ++
                   [("sortDirection", JString "desc");
                    ("startTimestamp", JNumber (parseTimestamp date));
                    ("endTimestamp", JNumber 253402214400)])%list).
Proof.
  split; [exact upkeep_tick_worker|]. split; [|split].
  - intros now ticks w. unfold Worker.upkeep. now rewrite upkeep_loop_worker.
  - intros date startDate t w.
    unfold Worker.upkeep_tick, Worker.bind.
    cbn [Worker.delay Worker.tell Worker.this Worker._request Worker.ret].
    destruct (Worker.tick_asc t) as [sa ascData|sa ascData]; [|eexists; reflexivity].
    destruct (Feed.records ascData) as [|first more]; [eexists; reflexivity|].
    destruct (negb (truthy_opt (Feed.continuation ascData))); [eexists; reflexivity|].
    destruct (Worker.tick_desc t) as [sd descData|sd descData]; [|eexists; reflexivity].
    destruct (isHighDensityBlock _ _); eexists; reflexivity.
  - intros date startDate t w q.
    unfold Worker.upkeep_tick, Worker.bind.
    cbn [Worker.delay Worker.tell Worker.this Worker._request Worker.ret].
    destruct (Worker.tick_asc t) as [sa ascData|sa ascData];
      [|tick_requests].
    destruct (Feed.records ascData) as [|first more]; [tick_requests|].
    destruct (negb (truthy_opt (Feed.continuation ascData))); [tick_requests|].
    destruct (Worker.tick_desc t) as [sd descData|sd descData]; [|tick_requests].
    destruct (isHighDensityBlock _ _); tick_requests.
Qed.

End WorkerFacts.

(** ** The properties on concrete runs *)

Lemma sample_getMiddleDate_contract : middle_contract sample_getMiddleDate.
Proof.
  intros s e. unfold sample_getMiddleDate.
  destruct (Z.ltb_spec (s + 1) e) as [Hlt|Hge].
  - split.
    + intros _.
      pose proof (Z.div_mod (e - s) 2 ltac:(lia)) as Hdm.
      pose proof (Z.mod_pos_bound (e - s) 2 ltac:(lia)) as Hmb.
      lia.
    + intros Hno. elim Hno. exists (s + 1). lia.
  - split.
    + intros [m Hm]. lia.
    + intros _. now left.
Qed.

Lemma C2_split_preserves_range_witness :
  Worker.grain_respond sample_isHighDensityBlock sample_getMiddleDate
    (map rec_at [0]) sample_block (page [1000000] None) Worker.initial
  = ((Worker.Continue, Worker.with_endDate sample_block 500000),
     Worker.initial,
     [Worker.Insert (map rec_at [0; 1000000]);
      Worker.Emit
        (Worker.WorkerSplit
           {| id := "b-1"; startDate := 500000; endDate := 1000000;
              contract := ""; mapping := None |})])
  /\ (in_range sample_block 500000 <->
       in_range (Worker.with_endDate sample_block 500000) 500000 \/
       in_range {| id := "b-1"; startDate := 500000; endDate := 1000000;
                   contract := ""; mapping := None |} 500000).
Proof.
  assert (H1 : startDate sample_block <= endDate sample_block)
    by (vm_compute; discriminate).
  assert (H2 : sample_isHighDensityBlock
                 (map rec_at [0] ++ Feed.records
                    {| Feed.records := map rec_at [1000000];
                       Feed.continuation := None |}) 300000 = true)
    by reflexivity.
  assert (H3 : startDate sample_block
               < sample_getMiddleDate (startDate sample_block) (endDate sample_block)
               < endDate sample_block)
    by (vm_compute; split; reflexivity).
  destruct (C2_split_preserves_range sample_isHighDensityBlock sample_getMiddleDate
              (map rec_at [0]) sample_block 200
              {| Feed.records := map rec_at [1000000]; Feed.continuation := None |}
              Worker.initial H1 H2 H3) as (Hrun & Hcover & _).
  split; [exact Hrun | exact (Hcover 500000)].
Defined.

Lemma C3_graining_terminates_witness :
  let b := {| id := "b-2"; startDate := 0; endDate := 4; contract := "";
              mapping := None |} in
  let trace := [page [4] None; failure; page [2] None; page [1] None; page [1] None] in
  let run := Worker.grain sample_normalize sample_parseTimestamp always_dense
               sample_getMiddleDate (map rec_at [0]) b trace Worker.initial in
  Z.of_nat (halvings (snd run)) <= Z.max 0 (endDate b - startDate b - 1)
  /\ ((exists b' rest, fst (fst run) = Worker.Grained b' rest)
      \/ fst (fst run) = Worker.GrainReleased).
Proof.
  intros b trace run.
  destruct (C3_graining_terminates sample_normalize sample_parseTimestamp
              always_dense sample_getMiddleDate sample_getMiddleDate_contract
              (map rec_at [0]) b trace Worker.initial) as [Hh Hx].
  split; [exact Hh|]. apply Hx. vm_compute. discriminate.
Defined.

Lemma C4_failures_keep_cursor_witness :
  Worker.page_respond failure Worker.initial
  = (Worker.Continue, Worker.initial, [Worker.Delay 5000])
  /\ (exists st d c,
         page [5] (Some "next") = SuccessResponse st d /\
         isSuccessResponse (page [5] (Some "next")) = true /\
         Feed.continuation d = Some c /\ truthy c = true /\
         Worker.continuation
           (snd (fst (Worker.page_respond (page [5] (Some "next")) Worker.initial)))
         = c)
  /\ Worker.paginate sample_normalize sample_parseTimestamp sample_block
       ([failure; failure] ++ [page [5] None]) Worker.initial
     = (fst (Worker.paginate sample_normalize sample_parseTimestamp sample_block
               [page [5] None] Worker.initial),
        [Worker.Request
           (Worker.page_query sample_normalize sample_parseTimestamp "" sample_block);
         Worker.Delay 5000;
         Worker.Request
           (Worker.page_query sample_normalize sample_parseTimestamp "" sample_block);
         Worker.Delay 5000]
        ++ snd (Worker.paginate sample_normalize sample_parseTimestamp sample_block
                  [page [5] None] Worker.initial))%list.
Proof.
  destruct (C4_failures_keep_cursor sample_normalize sample_parseTimestamp)
    as (Hfail & Hcursor & Hloop).
  split; [|split].
  - apply Hfail. reflexivity.
  - apply Hcursor. vm_compute. discriminate.
  - apply (Hloop sample_block [failure; failure] [page [5] None] Worker.initial).
    repeat constructor.
Defined.

Lemma C5_tail_burst_delegation_witness :
  (filter is_split
     (snd (Worker.upkeep_tick sample_normalize "sales" sample_parseTimestamp
             sample_isHighDensityBlock 5 5 burst_tick Worker.initial))
   = [Worker.Emit
        (Worker.WorkerSplit
           {| id := "u-1"; startDate := 10; endDate := 30; contract := "";
              mapping := None |})]
   /\ fst (fst (Worker.upkeep_tick sample_normalize "sales" sample_parseTimestamp
                  sample_isHighDensityBlock 5 5 burst_tick Worker.initial)) = 30)
  /\ (filter is_split
        (snd (Worker.upkeep_tick sample_normalize "sales" sample_parseTimestamp
                sample_isHighDensityBlock 5 5 calm_tick Worker.initial))
      = []
      /\ fst (fst (Worker.upkeep_tick sample_normalize "sales" sample_parseTimestamp
                     sample_isHighDensityBlock 5 5 calm_tick Worker.initial)) = 5).
Proof.
  split.
  - destruct (C5_tail_burst_delegation sample_normalize "sales" sample_parseTimestamp
                sample_isHighDensityBlock 5 5 burst_tick Worker.initial
                200 (rec_at 10) (map rec_at [20; 30]) "cur" 200
                {| Feed.records := map rec_at [1000000]; Feed.continuation := None |}
                eq_refl eq_refl eq_refl) as [Hdense _].
    destruct (Hdense eq_refl) as (Hsplit & Hstart & _).
    split; [exact Hsplit | exact Hstart].
  - destruct (C5_tail_burst_delegation sample_normalize "sales" sample_parseTimestamp
                sample_isHighDensityBlock 5 5 calm_tick Worker.initial
                200 (rec_at 10) (map rec_at [20; 30]) "cur" 200
                {| Feed.records := map rec_at [40]; Feed.continuation := None |}
                eq_refl eq_refl eq_refl) as [_ Hcalm].
    destruct (Hcalm eq_refl) as (Hsplit & Hstart & _).
    split; [exact Hsplit | exact Hstart].
Defined.

(** C9. Release resets the cursor and the busy flag and nothing else.
    [_release] sets [continuation] to the empty string and [busy] to false,
    emits the Release event and leaves [data] as it is.  Whatever the answers,
    [data.block] after [process] is the Block recorded on entry; graining
    does not update it when it shrinks [endDate].  In the run shown, the
    Worker is released with the Block [0, 500000] while [data.block] still
    records [0, 1000000]. *)
Theorem C9_release_keeps_data_block :
  (forall b w,
      Worker._release b w
      = (tt,
         {| Worker.busy := false; Worker.data := Worker.data w;
            Worker.continuation := "" |},
         [Worker.Emit (Worker.WorkerRelease b)]))
  /\ (forall _normalize parseTimestamp isHighDensityBlock getMiddleDate
             (b : Block) trace w,
         Worker.block
           (Worker.data
              (snd (fst (Worker.process _normalize parseTimestamp isHighDensityBlock
                           getMiddleDate b trace w))))
         = Some (Worker.literal b))
  /\ (let run :=
        Worker.process sample_normalize sample_parseTimestamp
          sample_isHighDensityBlock sample_getMiddleDate sample_block
          [page [0] (Some "c"); page [1000000] None; page [100000] None;
           page [5] None]
          Worker.initial in
      fst (fst run) = Worker.Returned
      /\ releases (snd run)
         = [{| id := "b-1"; startDate := 0; endDate := 500000; contract := "";
               mapping := None |}]
      /\ snd (fst run)
         = {| Worker.busy := false;
              Worker.data :=
                {| Worker.block :=
                     Some {| id := "b-1"; startDate := 0; endDate := 1000000;
                             contract := ""; mapping := None |};
                   Worker.data_continuation := None |};
              Worker.continuation := "" |}).
Proof.
  split; [reflexivity|]. split.
  - intros. apply process_block.
  - vm_compute. repeat split.
Qed.

(** ** Further properties of the Controller *)

Lemma pairs_text_app (a b : list (string * string)) :
  pairs_text (a ++ b)%list = (pairs_text a ++ pairs_text b)%string.
Proof.
  induction a as [|kv a IH]; [reflexivity|].
  cbn [app pairs_text fold_right]. fold (pairs_text (a ++ b)%list). fold (pairs_text a).
  rewrite IH. now rewrite !append_assoc.
Qed.

Lemma texts_of_written (before : Params) :
  forall after,
    NoDup (map fst (before ++ after)%list) ->
    texts_of (before ++ after)%list (map fst after) = texts_written after.
Proof.
  intros after. revert before.
  induction after as [|[k v] after IH]; intros before Hnd; [reflexivity|].
  cbn [map fst texts_of texts_written]. rewrite (get_distinct before after k v Hnd).
  destruct (ToString v) as [text|e]; [|reflexivity].
  specialize (IH (before ++ [(k, v)])%list).
  rewrite <- app_assoc in IH. cbn [app] in IH.
  now rewrite IH.
Qed.

(** With plain keys the query lists the definitions in the order written. *)
Lemma normalize_plain (config : Controller.ControllerConfig) (params : Params) :
  plain_keys (map fst params) ->
  Controller.normalizeParameters config params =
  match texts_written params with
  | Throw e => Throw e
  | Ok texts =>
      Ok ("limit=1000&includeCriteriaMetadata=true&"
          ++ Controller.sortField (root (type (Controller.cfg_mapping config)))
          ++ pairs_text (combine (map fst params) texts))%string
  end.
Proof.
  intros Hplain. rewrite normalize_equation, (Object_keys_plain params Hplain).
  destruct Hplain as [Hnd _].
  pose proof (texts_of_written [] params Hnd) as Ht.
  cbn [app] in Ht. now rewrite Ht.
Qed.

Lemma plain_keys_app_l (a b : list string) :
  plain_keys (a ++ b)%list -> plain_keys a.
Proof.
  intros [Hnd Hidx]. split.
  - now apply NoDup_app_remove_r in Hnd.
  - apply Forall_app in Hidx. tauto.
Qed.

Lemma plain_keys_skip (k k' : string) (keys : list string) :
  plain_keys (k :: k' :: keys) -> plain_keys (k :: keys).
Proof.
  intros [Hnd Hidx]. split.
  - inversion Hnd as [|x l Hk Hnd']; subst.
    inversion Hnd' as [|x l Hk' Hnd'']; subst.
    constructor; [|exact Hnd'']. intros Hin. apply Hk. now right.
  - inversion Hidx as [|x l Hx Hrest]; subst.
    inversion Hrest as [|x l Hx' Hrest']; subst.
    now constructor.
Qed.

Lemma texts_written_app (p : Params) (qs : list (string * string)) :
  texts_written (p ++ strings qs)%list =
  match texts_written p with
  | Throw e => Throw e
  | Ok texts => Ok (texts ++ map snd qs)%list
  end.
Proof.
  induction p as [|[k v] p IH].
  - cbn [app texts_written].
    induction qs as [|[k v] qs IHq]; [reflexivity|].
    cbn [strings map fst snd texts_written ToString] in *.
    fold (strings qs). now rewrite IHq.
  - cbn [app texts_written]. destruct (ToString v) as [text|e]; [|reflexivity].
    rewrite IH. now destruct (texts_written p).
Qed.

Lemma texts_written_length (p : Params) :
  forall texts, texts_written p = Ok texts -> List.length texts = List.length p.
Proof.
  induction p as [|[k v] p IH]; intros texts H.
  - cbn in H. now injection H as <-.
  - cbn [texts_written] in H.
    destruct (ToString v) as [text|e]; [|discriminate H].
    destruct (texts_written p) as [ts|e]; [|discriminate H].
    injection H as <-. cbn [List.length]. now rewrite (IH ts).
Qed.

Lemma combine_append {A B : Type} (a : list A) :
  forall (b : list B) (a' : list A) (b' : list B),
    List.length a = List.length b ->
    combine (a ++ a') (b ++ b') = (combine a b ++ combine a' b')%list.
Proof.
  induction a as [|x a IH]; intros [|y b] a' b' Hlen; try discriminate Hlen.
  - reflexivity.
  - cbn [app combine]. f_equal. apply IH. now injection Hlen.
Qed.

Lemma combine_strings (qs : list (string * string)) :
  combine (map fst (strings qs)) (map snd qs) = qs.
Proof.
  induction qs as [|[k v] qs IH]; [reflexivity|].
  cbn [strings map fst snd combine] in *. fold (strings qs). now rewrite IH.
Qed.

(** Appending string-valued parameters only extends the query string: when
    no key of the whole is an array index or written twice, the query of [p]
    followed by the string parameters [qs] is the query of [p] followed by
    the pairs of [qs] as they stand, and the exception [p] raises if it
    raises one. *)
Theorem normalizeParameters_app :
  forall (config : Controller.ControllerConfig) (p : Params)
         (qs : list (string * string)),
    plain_keys (map fst (p ++ strings qs)%list) ->
    Controller.normalizeParameters config (p ++ strings qs)%list =
    match Controller.normalizeParameters config p with
    | Throw e => Throw e
    | Ok query => Ok (query ++ pairs_text qs)%string
    end.
Proof.
  intros config p qs Hplain.
  assert (Hp : plain_keys (map fst p))
    by (rewrite map_app in Hplain; now apply plain_keys_app_l in Hplain).
  rewrite (normalize_plain config _ Hplain), (normalize_plain config p Hp).
  rewrite texts_written_app.
  destruct (texts_written p) as [texts|e] eqn:Ht; [|reflexivity].
  rewrite map_app, combine_append
    by (rewrite length_map; symmetry; now apply texts_written_length).
  rewrite combine_strings, pairs_text_app. now rewrite !append_assoc.
Qed.

Lemma normalizeParameters_app_witness :
  Controller.normalizeParameters sample_config
    ([("sortDirection", JString "asc"); ("startTimestamp", JNumber 1672531200)]
     ++ strings [("continuation", "abc"); ("contract", "0xabc")])%list
  = match Controller.normalizeParameters sample_config
            [("sortDirection", JString "asc"); ("startTimestamp", JNumber 1672531200)] with
    | Throw e => Throw e
    | Ok query => Ok (query ++ "&continuation=abc&contract=0xabc")%string
    end.
Proof.
  apply (normalizeParameters_app sample_config
           [("sortDirection", JString "asc"); ("startTimestamp", JNumber 1672531200)]
           [("continuation", "abc"); ("contract", "0xabc")]).
  split.
  - repeat constructor; cbn; intuition discriminate.
  - repeat constructor.
Defined.

(** Values are not escaped: when no key is an array index or written twice,
    a string value that contains [&k'=v'] yields the same query as passing
    [k'] as a parameter of its own, right after. *)
Theorem normalizeParameters_no_escaping :
  forall (config : Controller.ControllerConfig) (k v k' v' : string) (params : Params),
    plain_keys (k :: k' :: map fst params) ->
    Controller.normalizeParameters config
      ((k, JString (v ++ "&" ++ k' ++ "=" ++ v')%string) :: params) =
    Controller.normalizeParameters config
      ((k, JString v) :: (k', JString v') :: params).
Proof.
  intros config k v k' v' params Hplain.
  rewrite (normalize_plain config ((k, JString v) :: (k', JString v') :: params))
    by exact Hplain.
  rewrite (normalize_plain config ((k, JString (v ++ "&" ++ k' ++ "=" ++ v')%string) :: params))
    by (apply (plain_keys_skip k k'); exact Hplain).
  cbn [texts_written ToString].
  destruct (texts_written params) as [texts|e]; [|reflexivity].
  cbn [map fst snd combine pairs_text fold_right].
  now rewrite !append_assoc.
Qed.

Lemma normalizeParameters_no_escaping_witness :
  Controller.normalizeParameters sample_config
    [("contract", JString "0xabc&limit=1"); ("sortDirection", JString "asc")]
  = Controller.normalizeParameters sample_config
      [("contract", JString "0xabc"); ("limit", JString "1");
       ("sortDirection", JString "asc")].
Proof.
  apply (normalizeParameters_no_escaping sample_config "contract" "0xabc" "limit" "1"
           [("sortDirection", JString "asc")]).
  split.
  - repeat constructor; cbn; intuition discriminate.
  - repeat constructor.
Defined.

Lemma request_faults config parameters req rest :
  forall n,
    Controller.request config parameters (repeat Controller.Fault n ++ Controller.Answer req :: rest)
    = (Some req, repeat (Controller.request_call config parameters) (S n)).
Proof.
  induction n as [|n IH]; [reflexivity|].
  cbn [repeat app Controller.request]. rewrite IH. reflexivity.
Qed.

Lemma request_only_faults config parameters :
  forall n,
    Controller.request config parameters (repeat Controller.Fault n)
    = (None, repeat (Controller.request_call config parameters) (S n)).
Proof.
  induction n as [|n IH]; [reflexivity|].
  cbn [repeat Controller.request]. rewrite IH. reflexivity.
Qed.

(** [request] retries transport faults and nothing else.  After [n] faults
    followed by a response, it returns that response, whatever its status and
    whatever comes later, having made [n + 1] calls, all with the same
    configuration, URL and headers; while only faults have occurred no
    response is returned and the [n + 1]-th identical call is under way. *)
Theorem request_retries_faults_only :
  forall (config : Controller.ControllerConfig) (parameters : string) (n : nat),
    (forall req rest,
        Controller.request config parameters
          (repeat Controller.Fault n ++ Controller.Answer req :: rest)
        = (Some req, repeat (Controller.request_call config parameters) (S n)))
    /\ Controller.request config parameters (repeat Controller.Fault n)
       = (None, repeat (Controller.request_call config parameters) (S n)).
Proof.
  intros config parameters n. split.
  - intros req rest. apply request_faults.
  - apply request_only_faults.
Qed.

(** For a chain and a dataset the tables know, and parameters with plain
    keys whose values are strings and integers up to [2^53], the query is
    produced and the URL of the request that carries it is the chain's base,
    the dataset's path, [?], the fixed pair, the sort parameter and the
    caller's pairs as written. *)
Theorem request_url_layout :
  forall (config : Controller.ControllerConfig) (params : Params)
         (texts : list string) (base path : string),
    Controller.UrlBase (Controller.chain config) = Some base ->
    Controller.UrlPaths (dataset (type (Controller.cfg_mapping config))) = Some path ->
    plain_keys (map fst params) ->
    map verbatim (map snd params) = map Some texts ->
    exists query,
      Controller.normalizeParameters config params = Ok query
      /\ Controller.call_url (Controller.request_call config query)
         = (base ++ path ++ "?limit=1000&includeCriteriaMetadata=true&"
            ++ Controller.sortField (root (type (Controller.cfg_mapping config)))
            ++ pairs_text (combine (map fst params) texts))%string.
Proof.
  intros config params texts base path Hb Hp Hplain Hv.
  eexists. split; [apply (normalize_verbatim config params texts Hplain Hv)|].
  unfold Controller.request_call. cbn [Controller.call_url].
  rewrite Hb, Hp. reflexivity.
Qed.

Lemma request_url_layout_witness :
  exists query,
    Controller.normalizeParameters sample_config
      [("sortDirection", JString "asc"); ("endTimestamp", JNumber 253402214400)]
    = Ok query
    /\ Controller.call_url (Controller.request_call sample_config query)
       = "https://api.reservoir.tools/sales/v4?limit=1000&includeCriteriaMetadata=true&orderBy=updated_at&sortDirection=asc&endTimestamp=253402214400".
Proof.
  apply (request_url_layout sample_config
           [("sortDirection", JString "asc"); ("endTimestamp", JNumber 253402214400)]
           ["asc"; "253402214400"]
           "https://api.reservoir.tools" "/sales/v4" eq_refl eq_refl).
  - split.
    + repeat constructor; cbn; intuition discriminate.
    + repeat constructor.
  - reflexivity.
Defined.

(** Bootstrap is all or nothing.  If either probe is an application failure
    [_launch] throws the initialization error carrying both statuses; if both
    succeed but a page is empty it throws on the [undefined] record; in both
    cases nothing is queued and nothing is emitted.  Only when both pages are
    non-empty is one Block queued, from the last record of the ascending page
    to the last record of the descending page, followed by one
    [controller.event]. *)
Theorem launch_all_or_nothing :
  forall (config : Controller.ControllerConfig) (req0 req1 : Response) (uuid : string),
    (isSuccessResponse req0 && isSuccessResponse req1 = false ->
     Controller._launch config req0 req1 uuid
     = (Throw (InitError [status_of req0; status_of req1]), []))
    /\ (forall s0 d0 s1 d1,
           req0 = SuccessResponse s0 d0 -> req1 = SuccessResponse s1 d1 ->
           Feed.records d0 = [] \/ Feed.records d1 = [] ->
           Controller._launch config req0 req1 uuid = (Throw TypeError, []))
    /\ (forall s0 d0 s1 d1 r0 p0 r1 p1,
           req0 = SuccessResponse s0 d0 -> req1 = SuccessResponse s1 d1 ->
           Feed.records d0 = r0 :: p0 -> Feed.records d1 = r1 :: p1 ->
           Controller._launch config req0 req1 uuid
           = (Ok tt,
              [Controller.QueueInsert
                 {| id := uuid;
                    startDate := updatedAt (last (r0 :: p0) r0);
                    endDate := updatedAt (last (r1 :: p1) r1);
                    contract := "";
                    mapping := Some (Controller.cfg_mapping config) |};
               Controller.EmitEvent "controller.event" Controller.NoPayload])).
Proof.
  intros config req0 req1 uuid. split; [|split].
  - intros H. unfold Controller._launch, Controller._getInitialBlock.
    destruct req0, req1; try reflexivity. discriminate H.
  - intros s0 d0 s1 d1 -> -> H.
    unfold Controller._launch, Controller._getInitialBlock.
    destruct (Feed.records d0) as [|r0 p0].
    + now rewrite last_updatedAt_nil.
    + rewrite last_updatedAt_cons.
      destruct H as [H|H]; [discriminate H|]. rewrite H.
      now rewrite last_updatedAt_nil.
  - intros s0 d0 s1 d1 r0 p0 r1 p1 -> -> H0 H1.
    unfold Controller._launch, Controller._getInitialBlock.
    rewrite H0, H1, !last_updatedAt_cons. reflexivity.
Qed.

Lemma launch_all_or_nothing_witness :
  Controller._launch sample_config failure (page [9000; 8000] None) "uuid"
  = (Throw (InitError [500; 200]), [])
  /\ Controller._launch sample_config (page [1000] None) (page [] None) "uuid"
     = (Throw TypeError, [])
  /\ Controller._launch sample_config (page [1000; 2000] None) (page [9000; 8000] None) "uuid"
     = (Ok tt,
        [Controller.QueueInsert
           {| id := "uuid"; startDate := 2000; endDate := 8000; contract := "";
              mapping := Some (Controller.cfg_mapping sample_config) |};
         Controller.EmitEvent "controller.event" Controller.NoPayload]).
Proof.
  split; [|split].
  - exact (proj1 (launch_all_or_nothing sample_config failure
                    (page [9000; 8000] None) "uuid") eq_refl).
  - exact (proj1 (proj2 (launch_all_or_nothing sample_config (page [1000] None)
                           (page [] None) "uuid"))
             _ _ _ _ eq_refl eq_refl (or_intror eq_refl)).
  - exact (proj2 (proj2 (launch_all_or_nothing sample_config (page [1000; 2000] None)
                           (page [9000; 8000] None) "uuid"))
             _ _ _ _ _ _ _ _ eq_refl eq_refl eq_refl eq_refl).
Defined.

(** *** The initial Block on pages in feed order *)

Lemma fold_min_le (ts : list Z) :
  forall t, fold_left Z.min ts t <= t /\ Forall (fun x => fold_left Z.min ts t <= x) ts.
Proof.
  induction ts as [|x ts IH]; intros t; cbn [fold_left].
  - split; [lia | constructor].
  - destruct (IH (Z.min t x)) as [H1 H2]. split; [lia|].
    constructor; [lia | exact H2].
Qed.

Lemma fold_max_ge (ts : list Z) :
  forall t, t <= fold_left Z.max ts t /\ Forall (fun x => x <= fold_left Z.max ts t) ts.
Proof.
  induction ts as [|x ts IH]; intros t; cbn [fold_left].
  - split; [lia | constructor].
  - destruct (IH (Z.max t x)) as [H1 H2]. split; [lia|].
    constructor; [lia | exact H2].
Qed.

Lemma fold_min_in (ts : list Z) :
  forall t, fold_left Z.min ts t = t \/ In (fold_left Z.min ts t) ts.
Proof.
  induction ts as [|x ts IH]; intros t; cbn [fold_left]; [now left|].
  destruct (IH (Z.min t x)) as [H|H].
  - rewrite H. destruct (Z.min_spec t x) as [[_ ->]|[_ ->]]; [now left | right; now left].
  - right. now right.
Qed.

Lemma fold_max_in (ts : list Z) :
  forall t, fold_left Z.max ts t = t \/ In (fold_left Z.max ts t) ts.
Proof.
  induction ts as [|x ts IH]; intros t; cbn [fold_left]; [now left|].
  destruct (IH (Z.max t x)) as [H|H].
  - rewrite H. destruct (Z.max_spec t x) as [[_ ->]|[_ ->]]; [right; now left | now left].
  - right. now right.
Qed.

(** The oldest stamp is the member of the page below all its members. *)
Lemma oldest_unique (pg : list Record_) (m : Z) :
  In m (map updatedAt pg) ->
  Forall (fun x => m <= x) (map updatedAt pg) ->
  oldest pg = Some m.
Proof.
  unfold oldest. destruct (map updatedAt pg) as [|t ts]; [intros []|].
  intros Hin Hlb. f_equal.
  destruct (fold_min_le ts t) as [H1 H2].
  assert (Hmem : In (fold_left Z.min ts t) (t :: ts))
    by (destruct (fold_min_in ts t) as [->|H]; [now left | now right]).
  rewrite Forall_forall in Hlb. specialize (Hlb _ Hmem).
  assert (Hall : Forall (fun x => fold_left Z.min ts t <= x) (t :: ts))
    by (constructor; assumption).
  rewrite Forall_forall in Hall. specialize (Hall _ Hin). lia.
Qed.

Lemma newest_unique (pg : list Record_) (m : Z) :
  In m (map updatedAt pg) ->
  Forall (fun x => x <= m) (map updatedAt pg) ->
  newest pg = Some m.
Proof.
  unfold newest. destruct (map updatedAt pg) as [|t ts]; [intros []|].
  intros Hin Hub. f_equal.
  destruct (fold_max_ge ts t) as [H1 H2].
  assert (Hmem : In (fold_left Z.max ts t) (t :: ts))
    by (destruct (fold_max_in ts t) as [->|H]; [now left | now right]).
  rewrite Forall_forall in Hub. specialize (Hub _ Hmem).
  assert (Hall : Forall (fun x => x <= fold_left Z.max ts t) (t :: ts))
    by (constructor; assumption).
  rewrite Forall_forall in Hall. specialize (Hall _ Hin). lia.
Qed.

Lemma ascending_tail r pg : ascending (r :: pg) -> ascending pg.
Proof. intros [_ H]. exact H. Qed.

(** On an ascending page the first record bounds the page from below and the
    last record bounds it from above. *)
Lemma ascending_bounds (pg : list Record_) :
  forall r,
    ascending (r :: pg) ->
    Forall (fun x => updatedAt r <= x) (map updatedAt (r :: pg))
    /\ Forall (fun x => x <= updatedAt (last (r :: pg) r)) (map updatedAt (r :: pg)).
Proof.
  induction pg as [|r' pg IH]; intros r Hasc.
  - cbn. split; constructor; try constructor; lia.
  - destruct Hasc as [Hle Hrest]. destruct (IH r' Hrest) as [Hlo Hhi].
    rewrite !last_cons in Hhi. rewrite !last_cons. split.
    + cbn [map]. constructor; [lia|].
      eapply Forall_impl; [|exact Hlo]. cbn. intros; lia.
    + cbn [map]. constructor; [|exact Hhi].
      cbn [map] in Hhi. inversion Hhi; subst. lia.
Qed.

Lemma last_in {A : Type} (l : list A) :
  forall x, In (last (x :: l) x) (x :: l).
Proof.
  induction l as [|y l IH]; intros x; [now left|].
  specialize (IH y). rewrite last_cons in IH.
  rewrite !last_cons. right. exact IH.
Qed.

Lemma rev_head_last {A : Type} (l : list A) (d x : A) (t : list A) :
  rev l = x :: t -> last l d = x.
Proof.
  intros H. rewrite <- (rev_involutive l), H. cbn [rev]. apply last_last.
Qed.

Lemma last_updatedAt_nonempty (pg : list Record_) (d : Record_) :
  pg <> [] -> Controller.last_updatedAt pg = Ok (updatedAt (last pg d)).
Proof.
  destruct pg as [|r pg]; [intros H; now elim H|]. intros _.
  now rewrite last_updatedAt_cons, !last_cons.
Qed.

(** On a descending page the last record carries the oldest stamp. *)
Lemma descending_last_oldest (r : Record_) (pg : list Record_) :
  descending (r :: pg) ->
  oldest (r :: pg) = Some (updatedAt (last (r :: pg) r)).
Proof.
  unfold descending. intros Hd.
  destruct (rev (r :: pg)) as [|x t] eqn:Hrev.
  - apply (f_equal (@List.length _)) in Hrev.
    rewrite length_rev in Hrev. discriminate Hrev.
  - rewrite (rev_head_last (r :: pg) r x t Hrev).
    destruct (ascending_bounds t x Hd) as [Hlo _].
    apply oldest_unique.
    + apply in_map. apply in_rev. rewrite Hrev. now left.
    + rewrite <- Hrev, map_rev in Hlo. apply Forall_rev in Hlo.
      now rewrite rev_involutive in Hlo.
Qed.

Lemma ascending_last_newest (r : Record_) (pg : list Record_) :
  ascending (r :: pg) ->
  newest (r :: pg) = Some (updatedAt (last (r :: pg) r)).
Proof.
  intros Ha. destruct (ascending_bounds pg r Ha) as [_ Hhi].
  apply newest_unique; [|exact Hhi].
  apply in_map. apply last_in.
Qed.

(** With the pages in the order the feed returns them, the initial Block
    starts at the newest stamp of the ascending page and ends at the oldest
    stamp of the descending page. *)
Theorem initial_block_on_sorted_pages :
  forall (config : Controller.ControllerConfig) s0 c0 r0 p0 s1 c1 r1 p1 uuid,
    ascending (r0 :: p0) ->
    descending (r1 :: p1) ->
    exists b,
      Controller._getInitialBlock config
        (SuccessResponse s0 {| Feed.records := r0 :: p0; Feed.continuation := c0 |})
        (SuccessResponse s1 {| Feed.records := r1 :: p1; Feed.continuation := c1 |})
        uuid = Ok b
      /\ newest (r0 :: p0) = Some (startDate b)
      /\ oldest (r1 :: p1) = Some (endDate b).
Proof.
  intros config s0 c0 r0 p0 s1 c1 r1 p1 uuid Ha Hd.
  eexists. split; [apply getInitialBlock_last_records|].
  cbn [startDate endDate]. split.
  - now apply ascending_last_newest.
  - now apply descending_last_oldest.
Qed.

Lemma initial_block_on_sorted_pages_witness :
  exists b,
    Controller._getInitialBlock sample_config
      (page [1000; 2000; 3000] None) (page [9000; 8000; 7000] None) "uuid" = Ok b
    /\ newest (map rec_at [1000; 2000; 3000]) = Some (startDate b)
    /\ oldest (map rec_at [9000; 8000; 7000]) = Some (endDate b).
Proof.
  apply (initial_block_on_sorted_pages sample_config 200 None
           (rec_at 1000) (map rec_at [2000; 3000]) 200 None
           (rec_at 9000) (map rec_at [8000; 7000]) "uuid").
  - cbn. lia.
  - cbn. lia.
Defined.

(** When the whole feed fits on one page, so that the descending page is the
    ascending page reversed, the initial Block runs from the feed's last
    stamp back to its first: its end is not after its start. *)
Theorem initial_block_single_page_inverted :
  forall (config : Controller.ControllerConfig) s0 c0 r0 p0 s1 c1 uuid,
    ascending (r0 :: p0) ->
    Controller._getInitialBlock config
      (SuccessResponse s0 {| Feed.records := r0 :: p0; Feed.continuation := c0 |})
      (SuccessResponse s1 {| Feed.records := rev (r0 :: p0); Feed.continuation := c1 |})
      uuid
    = Ok {| id := uuid;
            startDate := updatedAt (last (r0 :: p0) r0);
            endDate := updatedAt r0;
            contract := "";
            mapping := Some (Controller.cfg_mapping config) |}
    /\ updatedAt r0 <= updatedAt (last (r0 :: p0) r0).
Proof.
  intros config s0 c0 r0 p0 s1 c1 uuid Ha. split.
  - unfold Controller._getInitialBlock. cbn [Feed.records].
    rewrite last_updatedAt_cons.
    rewrite (last_updatedAt_nonempty (rev (r0 :: p0)) r0).
    + cbn [rev]. now rewrite last_last.
    + intros H. apply (f_equal (@List.length _)) in H.
      rewrite length_rev in H. discriminate H.
  - destruct (ascending_bounds p0 r0 Ha) as [Hlo _].
    rewrite Forall_forall in Hlo. apply Hlo. apply in_map. apply last_in.
Qed.

Lemma initial_block_single_page_inverted_witness :
  Controller._getInitialBlock sample_config
    (page [1000; 2000; 3000] None) (page [3000; 2000; 1000] None) "uuid"
  = Ok {| id := "uuid"; startDate := 3000; endDate := 1000; contract := "";
          mapping := Some (Controller.cfg_mapping sample_config) |}
  /\ 1000 <= 3000.
Proof.
  apply (initial_block_single_page_inverted sample_config 200 None
           (rec_at 1000) (map rec_at [2000; 3000]) 200 None "uuid").
  cbn. lia.
Defined.

(** ** Further properties of the Worker *)

Lemma releases_app (a b : list Worker.Effect) :
  releases (a ++ b) = (releases a ++ releases b)%list.
Proof. apply flat_map_app. Qed.

Lemma splits_app (a b : list Worker.Effect) :
  splits (a ++ b) = (splits a ++ splits b)%list.
Proof. apply flat_map_app. Qed.

Lemma inserts_app (a b : list Worker.Effect) :
  inserts (a ++ b) = (inserts a ++ inserts b)%list.
Proof. apply flat_map_app. Qed.

Lemma delays_app (a b : list Worker.Effect) :
  delays (a ++ b) = (delays a ++ delays b)%list.
Proof. apply flat_map_app. Qed.

Section WorkerRuns.

Variable _normalize : Params -> string.
Variable _datatype : string.
Variable parseTimestamp : Timestamp -> Z.
Variable isHighDensityBlock : list Record_ -> Z -> bool.
Variable getMiddleDate : Timestamp -> Timestamp -> Timestamp.

Local Abbreviation grain_respond := (Worker.grain_respond isHighDensityBlock getMiddleDate).
Local Abbreviation grain :=
  (Worker.grain _normalize parseTimestamp isHighDensityBlock getMiddleDate).
Local Abbreviation paginate := (Worker.paginate _normalize parseTimestamp).
Local Abbreviation process :=
  (Worker.process _normalize parseTimestamp isHighDensityBlock getMiddleDate).
Local Abbreviation bounds_query := (Worker.bounds_query _normalize parseTimestamp).
Local Abbreviation page_query := (Worker.page_query _normalize parseTimestamp).
Local Abbreviation upkeep_tick :=
  (Worker.upkeep_tick _normalize _datatype parseTimestamp isHighDensityBlock).
Local Abbreviation upkeep_loop :=
  (Worker.upkeep_loop _normalize _datatype parseTimestamp isHighDensityBlock).
Local Abbreviation upkeep :=
  (Worker.upkeep _normalize _datatype parseTimestamp isHighDensityBlock).

(** Unfolds one turn of the graining loop on the answer [r] and splits into
    the five ways the turn can go: collapse onto the start, collapse onto the
    end, split, acceptable density, failed answer. *)
Ltac grain_turn ascRecords b r st d :=
  rewrite grain_cons;
  destruct r as [st d|st d];
  [ destruct (isHighDensityBlock (ascRecords ++ Feed.records d) 300000) eqn:Hdense;
    [ destruct (Z.eq_dec (getMiddleDate (startDate b) (endDate b)) (startDate b))
        as [Hs|Hs];
      [ rewrite grain_respond_collapse by auto
      | destruct (Z.eq_dec (getMiddleDate (startDate b) (endDate b)) (endDate b))
          as [He|He];
        [ rewrite grain_respond_collapse by auto
        | rewrite grain_respond_split by auto ] ]
    | rewrite grain_respond_break by auto ]
  | rewrite grain_respond_failure ].

(** Brings the projections of a list of effects to the front: conses are
    evaluated and appends distributed. *)
Ltac effects :=
  unfold releases, splits, inserts, delays in *;
  cbn [flat_map app] in *;
  rewrite ?flat_map_app in *.

(** *** Exit discipline of [process] *)

Lemma grain_exit ascRecords trace :
  forall b w,
    match fst (fst (grain ascRecords b trace w)) with
    | Worker.GrainReleased =>
        snd (fst (grain ascRecords b trace w)) = released w
        /\ exists pre rb,
             snd (grain ascRecords b trace w)
             = (pre ++ [Worker.Emit (Worker.WorkerRelease rb)])%list
             /\ releases pre = []
    | _ =>
        snd (fst (grain ascRecords b trace w)) = w
        /\ releases (snd (grain ascRecords b trace w)) = []
    end.
Proof.
  induction trace as [|r trace IH]; intros b w.
  - rewrite grain_nil. cbn. now split.
  - grain_turn ascRecords b r st d; cbn [fst snd].
    + split; [reflexivity|].
      exists [Worker.Request (bounds_query b "desc");
              Worker.Insert (ascRecords ++ Feed.records d)], (Worker.literal b).
      now split.
    + split; [reflexivity|].
      exists [Worker.Request (bounds_query b "desc");
              Worker.Insert (ascRecords ++ Feed.records d)], (Worker.literal b).
      now split.
    + specialize (IH (Worker.with_endDate b (getMiddleDate (startDate b) (endDate b))) w).
      destruct (grain ascRecords _ trace w) as [[x w2] e2]. cbn [fst snd] in *.
      destruct x; cbn [app releases flat_map] in *;
        try (destruct IH as [IHw IHr]; split; [exact IHw | exact IHr]).
      destruct IH as [IHw (pre & rb & He2 & Hpre)]. split; [exact IHw|].
      exists (Worker.Request (bounds_query b "desc")
              :: Worker.Insert (ascRecords ++ Feed.records d)
              :: Worker.Emit
                   (Worker.WorkerSplit
                      {| id := id b;
                         startDate := getMiddleDate (startDate b) (endDate b);
                         endDate := endDate b; contract := contract b;
                         mapping := None |})
              :: pre), rb.
      rewrite He2. split; [reflexivity | exact Hpre].
    + now split.
    + specialize (IH b w).
      destruct (grain ascRecords b trace w) as [[x w2] e2]. cbn [fst snd] in *.
      destruct x; cbn [app releases flat_map] in *;
        try (destruct IH as [IHw IHr]; split; [exact IHw | exact IHr]).
      destruct IH as [IHw (pre & rb & He2 & Hpre)]. split; [exact IHw|].
      exists (Worker.Request (bounds_query b "desc") :: Worker.Delay 5000 :: pre), rb.
      rewrite He2. split; [reflexivity | exact Hpre].
Qed.

Lemma page_respond_quiet r w :
  Worker.busy (snd (fst (Worker.page_respond r w))) = Worker.busy w
  /\ releases (snd (Worker.page_respond r w)) = []
  /\ splits (snd (Worker.page_respond r w)) = [].
Proof.
  destruct r as [st d|st d]; [|now cbn].
  unfold Worker.page_respond, Worker.bind.
  destruct (List.length (Feed.records d) =? 0)%nat; [now cbn|].
  cbn. destruct (Feed.continuation d) as [c|]; [|now cbn].
  destruct (truthy c); now cbn.
Qed.

Lemma paginate_quiet trace :
  forall b w,
    Worker.busy (snd (fst (paginate b trace w))) = Worker.busy w
    /\ releases (snd (paginate b trace w)) = []
    /\ splits (snd (paginate b trace w)) = [].
Proof.
  induction trace as [|r trace IH]; intros b w; [now cbn|].
  rewrite paginate_cons.
  destruct (page_respond_quiet r w) as (Hb & Hr & Hs).
  destruct (Worker.page_respond r w) as [[c w1] e1]. cbn [fst snd] in *.
  destruct c; cbn [fst snd].
  - specialize (IH b w1).
    destruct (paginate b trace w1) as [[x w2] e2]. cbn [fst snd] in *.
    destruct IH as (IHb & IHr & IHs). effects.
    rewrite Hr, Hs, IHr, IHs, IHb, Hb. now cbn.
  - effects. now rewrite Hb, Hr, Hs.
  - effects. now rewrite Hb, Hr, Hs.
Qed.

(** [process] leaves through a Release and only then.  Whatever the answers:
    if the call has returned, [busy] is false, [continuation] is empty and
    the call has emitted exactly one Release, as its last effect; while the
    call is still waiting for an answer, [busy] is true and no Release has
    been emitted. *)
Theorem process_exit_discipline :
  forall (b : Block) trace w,
    match fst (fst (process b trace w)) with
    | Worker.Returned =>
        Worker.busy (snd (fst (process b trace w))) = false
        /\ Worker.continuation (snd (fst (process b trace w))) = ""
        /\ exists pre rb,
             snd (process b trace w)
             = (pre ++ [Worker.Emit (Worker.WorkerRelease rb)])%list
             /\ releases pre = []
    | Worker.Awaiting =>
        Worker.busy (snd (fst (process b trace w))) = true
        /\ releases (snd (process b trace w)) = []
    end.
Proof.
  intros b trace. revert b.
  induction trace as [|r trace IH]; intros b w; [now cbn|].
  destruct r as [st d|st d].
  - destruct (Feed.records d) as [|r0 rs] eqn:Hr.
    + destruct d as [recs c]. cbn in Hr. subst recs.
      rewrite process_empty. cbn [fst snd]. repeat split.
      exists [Worker.Request (bounds_query b "asc")], (Worker.literal b). now split.
    + rewrite process_grain by (rewrite Hr; discriminate). rewrite Hr.
      pose proof (grain_exit (r0 :: rs) trace (Worker.literal b) (entered b w)) as Hg.
      destruct (grain (r0 :: rs) (Worker.literal b) trace (entered b w))
        as [[g w1] e1]. cbn [fst snd] in Hg.
      destruct g as [b' rest| |]; cbn [fst snd].
      * destruct Hg as [-> Hrel].
        pose proof (paginate_quiet rest b' (entered b w)) as (Hb & Hr2 & _).
        destruct (paginate b' rest (entered b w)) as [[p w2] e2]. cbn [fst snd] in *.
        destruct p; cbn [fst snd].
        -- repeat split.
           exists (Worker.Request (bounds_query b "asc") :: e1 ++ e2)%list,
                  (Worker.literal b').
           split; [cbn [app]; now rewrite app_assoc|].
           effects. now rewrite Hrel, Hr2.
        -- split; [exact Hb|].
           effects. now rewrite Hrel, Hr2.
      * destruct Hg as [-> (pre & rb & -> & Hpre)]. repeat split.
        exists (Worker.Request (bounds_query b "asc") :: pre), rb.
        split; [reflexivity | exact Hpre].
      * destruct Hg as [-> Hrel]. split; [reflexivity | exact Hrel].
  - rewrite process_failure. specialize (IH (Worker.literal b) (entered b w)).
    destruct (process (Worker.literal b) trace (entered b w)) as [[x w'] e].
    cbn [fst snd] in *. destruct x.
    + destruct IH as (Hb & Hc & pre & rb & -> & Hpre). repeat split; try assumption.
      exists (Worker.Request (bounds_query b "asc") :: Worker.Delay 5000 :: pre), rb.
      split; [reflexivity | exact Hpre].
    + exact IH.
Qed.

(** *** Ranges across the whole of [process] *)

Lemma cover_step (s m e t : Z) (P X : Prop) :
  s < m < e ->
  (s <= t <= m <-> P \/ X) ->
  (s <= t <= e <-> P \/ m <= t <= e \/ X).
Proof.
  intros Hm Hcov. split.
  - intros Ht. destruct (Z_le_gt_dec t m) as [Hle|Hgt].
    + destruct (proj1 Hcov ltac:(lia)) as [H|H]; [now left | now right; right].
    + right. left. lia.
  - intros [H|[H|H]].
    + pose proof (proj2 Hcov (or_introl H)). lia.
    + lia.
    + pose proof (proj2 Hcov (or_intror H)). lia.
Qed.

Lemma covers_nil_iff (P : Prop) (t : Timestamp) : P <-> P \/ covers [] t.
Proof.
  split; [now left|]. intros [H|H]; [exact H | inversion H].
Qed.

Lemma grain_ranges ascRecords :
  middle_contract getMiddleDate ->
  forall trace b w,
    match fst (fst (grain ascRecords b trace w)) with
    | Worker.Grained b' _ =>
        startDate b' = startDate b
        /\ tiles (endDate b') (endDate b) (splits (snd (grain ascRecords b trace w)))
        /\ (forall t,
               in_range b t <->
               in_range b' t \/ covers (splits (snd (grain ascRecords b trace w))) t)
    | Worker.GrainReleased =>
        exists rb,
          releases (snd (grain ascRecords b trace w)) = [rb]
          /\ startDate rb = startDate b
          /\ tiles (endDate rb) (endDate b) (splits (snd (grain ascRecords b trace w)))
          /\ (forall t,
                 in_range b t <->
                 in_range rb t \/ covers (splits (snd (grain ascRecords b trace w))) t)
    | Worker.GrainPending => True
    end.
Proof.
  intros Hc trace.
  induction trace as [|r trace IH]; intros b w.
  - rewrite grain_nil. exact I.
  - grain_turn ascRecords b r st d; cbn [fst snd].
    + exists (Worker.literal b). do 3 (split; [reflexivity|]).
      intros t. apply covers_nil_iff.
    + exists (Worker.literal b). do 3 (split; [reflexivity|]).
      intros t. apply covers_nil_iff.
    + destruct (contract_cases getMiddleDate (startDate b) (endDate b) Hc)
        as [Hin|[?|?]]; try contradiction.
      specialize (IH (Worker.with_endDate b (getMiddleDate (startDate b) (endDate b))) w).
      destruct (grain ascRecords _ trace w) as [[x w2] e2]. cbn [fst snd] in *.
      destruct x as [b' rest| |]; [| |exact I].
      * destruct IH as (Hst & Htiles & Hcov).
        cbn [Worker.with_endDate startDate endDate] in *.
        split; [exact Hst|]. split.
        -- cbn [splits flat_map app tiles startDate endDate].
           split; [reflexivity|]. split; [lia | exact Htiles].
        -- intros t. specialize (Hcov t).
           cbn [splits flat_map app]. fold (splits e2).
           unfold covers in *. rewrite Exists_cons.
           unfold in_range in *.
           cbn [Worker.with_endDate startDate endDate] in *.
           now apply cover_step.
      * destruct IH as (rb & Hrel & Hst & Htiles & Hcov).
        cbn [Worker.with_endDate startDate endDate] in *.
        exists rb. split; [exact Hrel|]. split; [exact Hst|]. split.
        -- cbn [splits flat_map app tiles startDate endDate].
           split; [reflexivity|]. split; [lia | exact Htiles].
        -- intros t. specialize (Hcov t).
           cbn [splits flat_map app]. fold (splits e2).
           unfold covers in *. rewrite Exists_cons.
           unfold in_range in *.
           cbn [Worker.with_endDate startDate endDate] in *.
           now apply cover_step.
    + do 2 (split; [reflexivity|]). intros t. apply covers_nil_iff.
    + specialize (IH b w).
      destruct (grain ascRecords b trace w) as [[x w2] e2]. cbn [fst snd] in *.
      exact IH.
Qed.

(** [process] neither loses nor duplicates any part of its range.  Under the
    contract of [getMiddleDate], once the call has returned it has released
    exactly one Block, which starts where the assigned Block starts; the
    Splits it has emitted tile the rest, from the end of the released Block
    up to the end of the assigned Block, each Split longer than a point and
    adjacent to the next; so a stamp lies in the assigned range exactly when
    it lies in the released range or in the range of a Split. *)
Theorem process_tiles_range :
  middle_contract getMiddleDate ->
  forall (b : Block) trace w,
    fst (fst (process b trace w)) = Worker.Returned ->
    exists rb,
      releases (snd (process b trace w)) = [rb]
      /\ startDate rb = startDate b
      /\ tiles (endDate rb) (endDate b) (splits (snd (process b trace w)))
      /\ (forall t,
             in_range b t <->
             in_range rb t \/ covers (splits (snd (process b trace w))) t).
Proof.
  intros Hc b trace. revert b.
  induction trace as [|r trace IH]; intros b w; [discriminate|].
  destruct r as [st d|st d].
  - destruct (Feed.records d) as [|r0 rs] eqn:Hr.
    + destruct d as [recs c]. cbn in Hr. subst recs.
      rewrite process_empty. cbn [fst snd]. intros _.
      exists (Worker.literal b). do 3 (split; [reflexivity|]).
      intros t. apply covers_nil_iff.
    + rewrite process_grain by (rewrite Hr; discriminate). rewrite Hr.
      pose proof (grain_ranges (r0 :: rs) Hc trace (Worker.literal b) (entered b w)) as Hg.
      pose proof (grain_exit (r0 :: rs) trace (Worker.literal b) (entered b w)) as Hx.
      destruct (grain (r0 :: rs) (Worker.literal b) trace (entered b w))
        as [[g w1] e1]. cbn [fst snd] in Hg, Hx.
      destruct g as [b' rest| |]; cbn [fst snd]; [| |discriminate].
      * destruct Hg as (Hst & Htiles & Hcov). destruct Hx as [_ Hrel].
        pose proof (paginate_quiet rest b' w1) as (_ & Hr2 & Hs2).
        destruct (paginate b' rest w1) as [[p w2] e2]. cbn [fst snd] in *.
        destruct p; cbn [fst snd]; [|discriminate]. intros _.
        exists (Worker.literal b').
        assert (Hsp : splits (Worker.Request (bounds_query b "asc")
                              :: e1 ++ e2 ++ [Worker.Emit (Worker.WorkerRelease (Worker.literal b'))])
                      = splits e1).
        { change (Worker.Request (bounds_query b "asc") :: e1 ++ e2 ++ [Worker.Emit (Worker.WorkerRelease (Worker.literal b'))])
            with ([Worker.Request (bounds_query b "asc")] ++ e1 ++ e2 ++ [Worker.Emit (Worker.WorkerRelease (Worker.literal b'))])%list.
          rewrite !splits_app, Hs2. cbn. now rewrite app_nil_r. }
        rewrite Hsp. split; [|split; [exact Hst | split; [exact Htiles | exact Hcov]]].
        change (Worker.Request (bounds_query b "asc") :: e1 ++ e2 ++ [Worker.Emit (Worker.WorkerRelease (Worker.literal b'))])
          with ([Worker.Request (bounds_query b "asc")] ++ e1 ++ e2 ++ [Worker.Emit (Worker.WorkerRelease (Worker.literal b'))])%list.
        rewrite !releases_app, Hrel, Hr2. reflexivity.
      * intros _. destruct Hg as (rb & Hrel & Hst & Htiles & Hcov).
        exists rb. split; [exact Hrel|]. split; [exact Hst|].
        split; [exact Htiles | exact Hcov].
  - rewrite process_failure. specialize (IH (Worker.literal b) (entered b w)).
    destruct (process (Worker.literal b) trace (entered b w)) as [[x w'] e].
    cbn [fst snd] in *. intros Hret.
    destruct (IH Hret) as (rb & Hrel & Hst & Htiles & Hcov).
    exists rb. split; [exact Hrel|]. split; [exact Hst|].
    split; [exact Htiles | exact Hcov].
Qed.

(** *** Identity of the Blocks in the events *)

Lemma same_identity_literal b : same_identity b (Worker.literal b).
Proof. now repeat split. Qed.

Lemma grain_identity ascRecords trace :
  forall b0 b w,
    same_identity b0 b ->
    Forall (same_identity b0) (splits (snd (grain ascRecords b trace w)))
    /\ Forall (same_identity b0) (releases (snd (grain ascRecords b trace w)))
    /\ match fst (fst (grain ascRecords b trace w)) with
       | Worker.Grained b' _ => same_identity b0 b'
       | _ => True
       end.
Proof.
  induction trace as [|r trace IH]; intros b0 b w Hb.
  - rewrite grain_nil. cbn. repeat split; constructor.
  - assert (Hlit : same_identity b0 (Worker.literal b))
      by (destruct Hb as (Hid & Hct & _); now repeat split).
    grain_turn ascRecords b r st d; cbn [fst snd].
    + cbn. split; [constructor|]. split; [|exact I].
      constructor; [exact Hlit | constructor].
    + cbn. split; [constructor|]. split; [|exact I].
      constructor; [exact Hlit | constructor].
    + specialize (IH b0 (Worker.with_endDate b (getMiddleDate (startDate b) (endDate b))) w).
      destruct (grain ascRecords _ trace w) as [[x w2] e2]. cbn [fst snd] in *.
      destruct IH as (IHs & IHr & IHx); [exact Hlit|].
      effects. split; [|split; assumption].
      constructor; [exact Hlit | exact IHs].
    + cbn. split; [constructor|]. split; [constructor | exact Hb].
    + specialize (IH b0 b w Hb).
      destruct (grain ascRecords b trace w) as [[x w2] e2]. cbn [fst snd] in *.
      effects. exact IH.
Qed.

(** Every Block [process] puts in an event is the assigned Block under
    another range: each Split and each Release carries the assigned Block's
    identifier and contract, and no mapping.  In particular a Split does not
    get an identifier of its own from the Worker. *)
Theorem process_events_keep_identity :
  forall (b : Block) trace w,
    Forall (same_identity b) (splits (snd (process b trace w)))
    /\ Forall (same_identity b) (releases (snd (process b trace w))).
Proof.
  intros b trace. revert b.
  induction trace as [|r trace IH]; intros b w; [cbn; split; constructor|].
  destruct r as [st d|st d].
  - destruct (Feed.records d) as [|r0 rs] eqn:Hr.
    + destruct d as [recs c]. cbn in Hr. subst recs.
      rewrite process_empty. cbn. split; constructor; [|constructor].
      apply same_identity_literal.
    + rewrite process_grain by (rewrite Hr; discriminate). rewrite Hr.
      pose proof (grain_identity (r0 :: rs) trace b (Worker.literal b) (entered b w)
                    (same_identity_literal b)) as (Hs & Hrl & Hx).
      destruct (grain (r0 :: rs) (Worker.literal b) trace (entered b w))
        as [[g w1] e1]. cbn [fst snd] in *.
      destruct g as [b' rest| |]; cbn [fst snd]; try (effects; now split).
      pose proof (paginate_quiet rest b' w1) as (_ & Hr2 & Hs2).
      destruct (paginate b' rest w1) as [[pg w2] e2]. cbn [fst snd] in *.
      destruct pg; cbn [fst snd]; effects; rewrite ?Hr2, ?Hs2, ?app_nil_r.
      * split; [exact Hs|]. apply Forall_app. split; [exact Hrl|].
        constructor; [|constructor].
        destruct Hx as (Hid & Hct & _). now repeat split.
      * now split.
  - rewrite process_failure. specialize (IH (Worker.literal b) (entered b w)).
    destruct (process (Worker.literal b) trace (entered b w)) as [[x w'] e].
    cbn [fst snd] in *. effects. exact IH.
Qed.

(** *** Insertions during graining *)

(** Graining inserts the cached ascending page again on every successful
    turn: each batch it inserts starts with that page, and there are never
    more batches than successful answers. *)
Theorem grain_reinserts_ascending_page :
  forall ascRecords (b : Block) trace w,
    Forall (fun batch => exists tail, batch = (ascRecords ++ tail)%list)
      (inserts (snd (grain ascRecords b trace w)))
    /\ (List.length (inserts (snd (grain ascRecords b trace w))) <= answered trace)%nat.
Proof.
  intros ascRecords b trace. revert b.
  induction trace as [|r trace IH]; intros b w.
  - rewrite grain_nil. cbn. split; [constructor | lia].
  - unfold answered. cbn [filter].
    grain_turn ascRecords b r st d; cbn [fst snd isSuccessResponse List.length].
    + cbn. split; [|lia]. constructor; [now exists (Feed.records d) | constructor].
    + cbn. split; [|lia]. constructor; [now exists (Feed.records d) | constructor].
    + specialize (IH (Worker.with_endDate b (getMiddleDate (startDate b) (endDate b))) w).
      destruct (grain ascRecords _ trace w) as [[x w2] e2]. cbn [fst snd] in *.
      destruct IH as [IH1 IH2]. unfold answered in IH2. effects.
      cbn [List.length]. split; [|lia].
      constructor; [now exists (Feed.records d) | exact IH1].
    + cbn. split; [|lia]. constructor; [now exists (Feed.records d) | constructor].
    + specialize (IH b w).
      destruct (grain ascRecords b trace w) as [[x w2] e2]. cbn [fst snd] in *.
      destruct IH as [IH1 IH2]. unfold answered in IH2. effects.
      split; [exact IH1 | lia].
Qed.

(** *** Pagination *)

Lemma pages_of_app (a b : list Response) :
  pages_of (a ++ b) = (pages_of a ++ pages_of b)%list.
Proof. apply flat_map_app. Qed.

Lemma page_query_range cursor b b' :
  startDate b = startDate b' -> endDate b = endDate b' ->
  page_query cursor b = page_query cursor b'.
Proof. intros Hs He. unfold Worker.page_query. now rewrite Hs, He. Qed.

(** Pagination looks at the range and nothing else of its Block: two Blocks
    with the same [startDate] and [endDate] are paginated with the same
    requests, insertions and result, whatever their contract and
    identifier.  The contract filter of the two probes is not part of the
    pagination requests. *)
Theorem paginate_depends_on_range_only :
  forall (b b' : Block) trace w,
    startDate b = startDate b' ->
    endDate b = endDate b' ->
    paginate b trace w = paginate b' trace w.
Proof.
  intros b b' trace w Hs He. revert w.
  induction trace as [|r trace IH]; intros w.
  - rewrite !paginate_nil. now rewrite (page_query_range _ b b' Hs He).
  - rewrite !paginate_cons. rewrite (page_query_range _ b b' Hs He).
    destruct (Worker.page_respond r w) as [[c w1] e1].
    destruct c; try reflexivity. now rewrite IH.
Qed.

Lemma page_respond_final r w :
  final r = true ->
  fst (fst (Worker.page_respond r w)) = Worker.Break
  /\ inserts (snd (Worker.page_respond r w)) = pages_of [r].
Proof.
  destruct r as [st d|st d]; [|discriminate].
  unfold final, pages_of, Worker.page_respond, Worker.bind. cbn [flat_map app].
  destruct (Feed.records d) as [|r0 rs]; [now cbn|].
  cbn [List.length Nat.eqb orb].
  destruct (Feed.continuation d) as [c|]; cbn [truthy_opt].
  - destruct (truthy c); [discriminate | now cbn].
  - now cbn.
Qed.

Lemma page_respond_nonfinal r w :
  final r = false ->
  fst (fst (Worker.page_respond r w)) = Worker.Continue
  /\ inserts (snd (Worker.page_respond r w)) = pages_of [r].
Proof.
  destruct r as [st d|st d]; [|now cbn].
  unfold final, pages_of, Worker.page_respond, Worker.bind. cbn [flat_map app].
  destruct (Feed.records d) as [|r0 rs]; [discriminate|].
  cbn [List.length Nat.eqb orb].
  destruct (Feed.continuation d) as [c|]; cbn [truthy_opt]; [|discriminate].
  destruct (truthy c); [now cbn | discriminate].
Qed.

Lemma paginate_pending trace :
  forall b w,
    Forall (fun r => final r = false) trace ->
    fst (fst (paginate b trace w)) = Worker.PagePending
    /\ inserts (snd (paginate b trace w)) = pages_of trace.
Proof.
  induction trace as [|r trace IH]; intros b w Hf; [now cbn|].
  inversion Hf as [|r' l' Hr Hrest]; subst.
  rewrite paginate_cons.
  destruct (page_respond_nonfinal r w Hr) as [Hc Hi].
  destruct (Worker.page_respond r w) as [[c w1] e1]. cbn [fst snd] in *. subst c.
  specialize (IH b w1 Hrest).
  destruct (paginate b trace w1) as [[x w2] e2]. cbn [fst snd] in *.
  destruct IH as [IHx IHi]. split; [exact IHx|].
  change (r :: trace) with ([r] ++ trace)%list. rewrite pages_of_app, <- Hi, <- IHi.
  now effects.
Qed.

Lemma paginate_exit pre :
  forall b r rest w,
    Forall (fun x => final x = false) pre ->
    final r = true ->
    fst (fst (paginate b (pre ++ r :: rest) w)) = Worker.Paged rest
    /\ inserts (snd (paginate b (pre ++ r :: rest) w)) = pages_of (pre ++ [r]).
Proof.
  induction pre as [|x pre IH]; intros b r rest w Hf Hr.
  - cbn [app]. rewrite paginate_cons.
    destruct (page_respond_final r w Hr) as [Hc Hi].
    destruct (Worker.page_respond r w) as [[c w1] e1]. cbn [fst snd] in *. subst c.
    cbn [fst snd]. split; [reflexivity|]. rewrite <- Hi. now effects.
  - inversion Hf as [|x' l' Hx Hrest]; subst.
    cbn [app]. rewrite paginate_cons.
    destruct (page_respond_nonfinal x w Hx) as [Hc Hi].
    destruct (Worker.page_respond x w) as [[c w1] e1]. cbn [fst snd] in *. subst c.
    specialize (IH b r rest w1 Hrest Hr).
    destruct (paginate b (pre ++ r :: rest) w1) as [[y w2] e2]. cbn [fst snd] in *.
    destruct IH as [IHx IHi]. split; [exact IHx|].
    change (x :: pre ++ [r])%list with ([x] ++ (pre ++ [r]))%list.
    rewrite pages_of_app, <- Hi, <- IHi. now effects.
Qed.

(** Pagination stops at the first successful answer that has no records or
    no continuation, and inserts every page on the way exactly once.  If the
    answers before [r] are all failures or non-empty pages with a
    continuation and [r] is such a stopping answer, the loop is left right
    after [r], none of the later answers is used, and the batches inserted
    are the non-empty pages received up to and including [r], in order.
    While no stopping answer has come the loop is still running, with every
    non-empty page received so far inserted once. *)
Theorem paginate_stops_at_first_final :
  (forall (b : Block) pre r rest w,
      Forall (fun x => final x = false) pre ->
      final r = true ->
      fst (fst (paginate b (pre ++ r :: rest) w)) = Worker.Paged rest
      /\ inserts (snd (paginate b (pre ++ r :: rest) w)) = pages_of (pre ++ [r]))
  /\ (forall (b : Block) trace w,
         Forall (fun x => final x = false) trace ->
         fst (fst (paginate b trace w)) = Worker.PagePending
         /\ inserts (snd (paginate b trace w)) = pages_of trace).
Proof.
  split.
  - intros b pre r rest w. apply paginate_exit.
  - intros b trace w. apply paginate_pending.
Qed.

(** *** Retries of the first probe *)

Lemma process_literal b trace w :
  process (Worker.literal b) trace w = process b trace w.
Proof. destruct trace as [|r trace]; reflexivity. Qed.

Lemma process_entered b trace w :
  process b trace (entered b w) = process b trace w.
Proof. destruct trace as [|r trace]; reflexivity. Qed.

(** A failed first probe changes nothing but the time spent: after any
    number of failed answers, each followed by the 5000 ms sleep and the same
    probe request again, [process] goes on exactly as it would have without
    them. *)
Theorem process_retries_probe :
  forall (b : Block) fails trace w,
    Forall (fun r => isSuccessResponse r = false) fails ->
    process b (fails ++ trace) w =
    (fst (process b trace w),
     (flat_map
        (fun _ => [Worker.Request (bounds_query b "asc"); Worker.Delay 5000]) fails
      ++ snd (process b trace w))%list).
Proof.
  intros b fails trace w Hf. revert w.
  induction Hf as [|r fails Hr Hf IH]; intros w.
  - cbn. now destruct (process b trace w) as [[x w'] e].
  - destruct r as [st d|st d]; [discriminate Hr|].
    cbn [app]. rewrite process_failure, process_literal, process_entered, IH.
    now destruct (process b trace w) as [[x w'] e].
Qed.

(** *** A density predicate that never fires *)

Lemma grain_sparse ascRecords :
  (forall sample, isHighDensityBlock sample 300000 = false) ->
  forall trace b w,
    splits (snd (grain ascRecords b trace w)) = []
    /\ releases (snd (grain ascRecords b trace w)) = []
    /\ match fst (fst (grain ascRecords b trace w)) with
       | Worker.Grained b' _ => b' = b
       | Worker.GrainReleased => False
       | Worker.GrainPending => True
       end.
Proof.
  intros Hsparse trace.
  induction trace as [|r trace IH]; intros b w; [now cbn|].
  rewrite grain_cons. destruct r as [st d|st d].
  - rewrite grain_respond_break by apply Hsparse. now cbn.
  - rewrite grain_respond_failure. cbn [fst snd]. specialize (IH b w).
    destruct (grain ascRecords b trace w) as [[x w2] e2]. cbn [fst snd] in *.
    effects. exact IH.
Qed.

(** When the density predicate finds no sample too dense, [process] emits no
    Split, and the Block it releases on return is the assigned Block with its
    full range. *)
Theorem process_sparse_releases_whole_block :
  (forall sample, isHighDensityBlock sample 300000 = false) ->
  forall (b : Block) trace w,
    splits (snd (process b trace w)) = []
    /\ (fst (fst (process b trace w)) = Worker.Returned ->
        releases (snd (process b trace w)) = [Worker.literal b]).
Proof.
  intros Hsparse b trace. revert b.
  induction trace as [|r trace IH]; intros b w; [cbn; split; [reflexivity | discriminate]|].
  destruct r as [st d|st d].
  - destruct (Feed.records d) as [|r0 rs] eqn:Hr.
    + destruct d as [recs c]. cbn in Hr. subst recs.
      rewrite process_empty. now cbn.
    + rewrite process_grain by (rewrite Hr; discriminate). rewrite Hr.
      pose proof (grain_sparse (r0 :: rs) Hsparse trace (Worker.literal b) (entered b w))
        as (Hs & Hrl & Hx).
      destruct (grain (r0 :: rs) (Worker.literal b) trace (entered b w))
        as [[g w1] e1]. cbn [fst snd] in *.
      destruct g as [b' rest| |]; cbn [fst snd]; [|now elim Hx|].
      * subst b'.
        pose proof (paginate_quiet rest (Worker.literal b) w1) as (_ & Hr2 & Hs2).
        destruct (paginate (Worker.literal b) rest w1) as [[pg w2] e2].
        cbn [fst snd] in *.
        destruct pg; cbn [fst snd]; effects; rewrite ?Hs, ?Hrl, ?Hr2, ?Hs2.
        -- now split.
        -- split; [reflexivity | discriminate].
      * effects. split; [exact Hs | discriminate].
  - rewrite process_failure, process_literal, process_entered.
    specialize (IH b w).
    destruct (process b trace w) as [[x w'] e]. cbn [fst snd] in *.
    effects. exact IH.
Qed.

(** *** The tail loop *)

(** Unfolds a tick and splits into the ways it can go: empty page, no
    cursor, dense, not dense, failed descending probe, failed ascending
    fetch. *)
Ltac tick_cases t :=
  unfold Worker.upkeep_tick, Worker.bind;
  cbn [Worker.delay Worker.tell Worker.this Worker._request Worker.ret];
  destruct (Worker.tick_asc t) as [sa ascData|sa ascData];
  [ destruct (Feed.records ascData) as [|first more];
    [ | destruct (negb (truthy_opt (Feed.continuation ascData)));
        [ | destruct (Worker.tick_desc t) as [sd descData|sd descData];
            [ destruct (isHighDensityBlock _ _) eqn:Hdense | ] ] ]
  | ].

Lemma upkeep_tick_discipline date startDate t w :
  delays (snd (upkeep_tick date startDate t w)) = [5000]
  /\ releases (snd (upkeep_tick date startDate t w)) = []
  /\ inserts (snd (upkeep_tick date startDate t w)) = []
  /\ Forall (fun s => contract s = "" /\ mapping s = None)
       (splits (snd (upkeep_tick date startDate t w))).
Proof.
  tick_cases t; cbn; repeat split; repeat constructor.
Qed.

Lemma upkeep_loop_discipline date ticks :
  forall start w,
    delays (snd (upkeep_loop date start ticks w)) = repeat 5000 (List.length ticks)
    /\ releases (snd (upkeep_loop date start ticks w)) = []
    /\ inserts (snd (upkeep_loop date start ticks w)) = []
    /\ Forall (fun s => contract s = "" /\ mapping s = None)
         (splits (snd (upkeep_loop date start ticks w))).
Proof.
  induction ticks as [|t ticks IH]; intros start w.
  - cbn. repeat split. constructor.
  - rewrite upkeep_loop_cons.
    destruct (upkeep_tick_discipline date start t w) as (Hd & Hr & Hi & Hs).
    specialize (IH (fst (fst (upkeep_tick date start t w))) w).
    destruct (upkeep_loop date _ ticks w) as [[x w'] e]. cbn [fst snd] in *.
    destruct IH as (IHd & IHr & IHi & IHs).
    rewrite delays_app, releases_app, inserts_app, splits_app.
    rewrite Hd, Hr, Hi, IHd, IHr, IHi. cbn [app List.length repeat].
    repeat split. apply Forall_app. now split.
Qed.

(** The tail loop paces itself and stays out of the Block pipeline: over any
    number of ticks it sleeps 5000 ms exactly once per tick, never emits a
    Release, never inserts through the controller (its records go to the
    upsert), and every Split it emits has an empty contract and no
    mapping. *)
Theorem upkeep_effect_discipline :
  forall now ticks w,
    delays (snd (upkeep now ticks w)) = repeat 5000 (List.length ticks)
    /\ releases (snd (upkeep now ticks w)) = []
    /\ inserts (snd (upkeep now ticks w)) = []
    /\ Forall (fun s => contract s = "" /\ mapping s = None)
         (splits (snd (upkeep now ticks w))).
Proof.
  intros now ticks w. unfold Worker.upkeep. apply upkeep_loop_discipline.
Qed.

Lemma upkeep_tick_well_formed date start t w :
  tick_page_ascending t ->
  Forall (fun s => startDate s <= endDate s)
    (splits (snd (upkeep_tick date start t w))).
Proof.
  unfold tick_page_ascending.
  tick_cases t; intros Hasc; cbn; repeat constructor.
  cbn [startDate endDate].
  destruct (ascending_bounds more first Hasc) as [Hlo _].
  rewrite Forall_forall in Hlo. apply Hlo. apply in_map. apply last_in.
Qed.

Lemma upkeep_loop_well_formed date ticks :
  Forall tick_page_ascending ticks ->
  forall start w,
    Forall (fun s => startDate s <= endDate s)
      (splits (snd (upkeep_loop date start ticks w))).
Proof.
  intros Hasc.
  induction Hasc as [|t ticks Ht Hasc IH]; intros start w; [constructor|].
  rewrite upkeep_loop_cons.
  pose proof (upkeep_tick_well_formed date start t w Ht) as Hs.
  specialize (IH (fst (fst (upkeep_tick date start t w))) w).
  destruct (upkeep_loop date _ ticks w) as [[x w'] e]. cbn [fst snd] in *.
  rewrite splits_app. apply Forall_app. now split.
Qed.

(** When the ascending pages come in ascending order, every Split the tail
    loop emits is a well-formed range: its start is not after its end. *)
Theorem upkeep_splits_well_formed :
  forall now ticks w,
    Forall tick_page_ascending ticks ->
    Forall (fun s => startDate s <= endDate s) (splits (snd (upkeep now ticks w))).
Proof.
  intros now ticks w Hasc. unfold Worker.upkeep. now apply upkeep_loop_well_formed.
Qed.

Lemma upkeep_tick_sparse date start t w :
  (forall sample, isHighDensityBlock sample 300000 = false) ->
  fst (fst (upkeep_tick date start t w)) = start
  /\ splits (snd (upkeep_tick date start t w)) = [].
Proof.
  intros Hsparse.
  tick_cases t; try (now cbn).
  rewrite Hsparse in Hdense. discriminate Hdense.
Qed.

Lemma upkeep_loop_sparse date ticks :
  (forall sample, isHighDensityBlock sample 300000 = false) ->
  forall start w,
    fst (fst (upkeep_loop date start ticks w)) = start
    /\ splits (snd (upkeep_loop date start ticks w)) = [].
Proof.
  intros Hsparse.
  induction ticks as [|t ticks IH]; intros start w; [now cbn|].
  rewrite upkeep_loop_cons.
  destruct (upkeep_tick_sparse date start t w Hsparse) as [Hst Hs].
  rewrite Hst. specialize (IH start w).
  destruct (upkeep_loop date start ticks w) as [[x w'] e]. cbn [fst snd] in *.
  rewrite splits_app, Hs. exact IH.
Qed.

(** When the density predicate finds no sample too dense, the tail loop never
    moves its start position and never emits a Split: after any number of
    ticks it still fetches from the instant it was started at. *)
Theorem upkeep_sparse_never_advances :
  (forall sample, isHighDensityBlock sample 300000 = false) ->
  forall now ticks w,
    fst (fst (upkeep now ticks w)) = now
    /\ splits (snd (upkeep now ticks w)) = [].
Proof.
  intros Hsparse now ticks w. unfold Worker.upkeep. now apply upkeep_loop_sparse.
Qed.

Lemma upserts_app (a b : list Worker.Effect) :
  upserts (a ++ b) = (upserts a ++ upserts b)%list.
Proof. apply flat_map_app. Qed.

Lemma upkeep_tick_upserts date start t w :
  upserts (snd (upkeep_tick date start t w))
  = map (fun pg => (_datatype, pg)) (tick_pages [t]).
Proof.
  unfold tick_pages, pages_of. cbn [map flat_map].
  tick_cases t; reflexivity.
Qed.

Lemma upkeep_loop_upserts date ticks :
  forall start w,
    upserts (snd (upkeep_loop date start ticks w))
    = map (fun pg => (_datatype, pg)) (tick_pages ticks).
Proof.
  induction ticks as [|t ticks IH]; intros start w; [reflexivity|].
  rewrite upkeep_loop_cons.
  pose proof (upkeep_tick_upserts date start t w) as Ht.
  specialize (IH (fst (fst (upkeep_tick date start t w))) w).
  destruct (upkeep_loop date _ ticks w) as [[x w'] e]. cbn [fst snd] in *.
  rewrite upserts_app, Ht, IH. unfold tick_pages.
  change (map Worker.tick_asc (t :: ticks))
    with (map Worker.tick_asc [t] ++ map Worker.tick_asc ticks)%list.
  now rewrite pages_of_app, map_app.
Qed.

(** The tail loop stores every page it receives.  The batches it upserts are
    exactly the non-empty pages of its successful ascending answers, once
    each and in order, under the Worker's datatype; neither the cursor, nor
    the descending probe, nor the density of the sample has any say in it. *)
Theorem upkeep_upserts_every_page :
  forall now ticks w,
    upserts (snd (upkeep now ticks w))
    = map (fun pg => (_datatype, pg)) (tick_pages ticks).
Proof.
  intros now ticks w. unfold Worker.upkeep. apply upkeep_loop_upserts.
Qed.

Lemma upkeep_loop_from date lo ticks :
  Forall (tick_page_from lo) ticks ->
  forall start w,
    lo <= start ->
    lo <= fst (fst (upkeep_loop date start ticks w)).
Proof.
  intros Hfrom.
  induction Hfrom as [|t ticks Ht Hfrom IH]; intros start w Hle; [exact Hle|].
  rewrite upkeep_loop_cons.
  assert (Hstep : lo <= fst (fst (upkeep_tick date start t w))).
  { revert Ht. unfold tick_page_from.
    tick_cases t; intros Hfrom'; cbn -[last Z.le]; try lia.
    rewrite Forall_forall in Hfrom'. apply Hfrom'. apply last_in. }
  specialize (IH (fst (fst (upkeep_tick date start t w))) w Hstep).
  destruct (upkeep_loop date _ ticks w) as [[x w'] e]. exact IH.
Qed.

(** The tail's start position never falls behind the instant the loop was
    started at, as long as the feed answers the ascending fetch with records
    stamped at or after that instant. *)
Theorem upkeep_start_not_before_now :
  forall now ticks w,
    Forall (tick_page_from now) ticks ->
    now <= fst (fst (upkeep now ticks w)).
Proof.
  intros now ticks w Hfrom. unfold Worker.upkeep.
  apply (upkeep_loop_from now now ticks Hfrom now w). lia.
Qed.

(** *** Retries of the descending probe *)

(** A failed descending probe is retried unchanged: after any number of
    failed answers, each followed by the 5000 ms sleep and the same probe
    request again, graining goes on from the same range exactly as it would
    have without them. *)
Theorem grain_retries_probe :
  forall ascRecords (b : Block) fails trace w,
    Forall (fun r => isSuccessResponse r = false) fails ->
    grain ascRecords b (fails ++ trace) w =
    (fst (grain ascRecords b trace w),
     (flat_map
        (fun _ => [Worker.Request (bounds_query b "desc"); Worker.Delay 5000]) fails
      ++ snd (grain ascRecords b trace w))%list).
Proof.
  intros ascRecords b fails trace w Hf.
  induction Hf as [|r fails Hr Hf IH].
  - cbn. now destruct (grain ascRecords b trace w) as [[x w'] e].
  - destruct r as [st d|st d]; [discriminate Hr|].
    cbn [app]. rewrite grain_cons, grain_respond_failure. cbn [fst snd].
    rewrite IH. now destruct (grain ascRecords b trace w) as [[x w'] e].
Qed.

End WorkerRuns.

(** ** The further properties on concrete runs *)

Lemma process_tiles_range_witness :
  let run :=
    Worker.process sample_normalize sample_parseTimestamp
      sample_isHighDensityBlock sample_getMiddleDate sample_block
      [page [0] (Some "c"); page [1000000] None; page [100000] None; page [5] None]
      Worker.initial in
  exists rb,
    releases (snd run) = [rb]
    /\ startDate rb = startDate sample_block
    /\ tiles (endDate rb) (endDate sample_block) (splits (snd run))
    /\ (forall t, in_range sample_block t <-> in_range rb t \/ covers (splits (snd run)) t).
Proof.
  apply (process_tiles_range sample_normalize sample_parseTimestamp
           sample_isHighDensityBlock sample_getMiddleDate
           sample_getMiddleDate_contract sample_block).
  reflexivity.
Defined.

Lemma paginate_depends_on_range_only_witness :
  Worker.paginate sample_normalize sample_parseTimestamp contract_block
    [failure; page [1; 2] (Some "c"); page [3] None] Worker.initial
  = Worker.paginate sample_normalize sample_parseTimestamp sample_block
      [failure; page [1; 2] (Some "c"); page [3] None] Worker.initial.
Proof.
  apply (paginate_depends_on_range_only sample_normalize sample_parseTimestamp
           contract_block sample_block); reflexivity.
Defined.

Lemma paginate_stops_at_first_final_witness :
  (fst (fst (Worker.paginate sample_normalize sample_parseTimestamp sample_block
               ([failure; page [1; 2] (Some "c")] ++ page [3] None :: [page [4] None])
               Worker.initial))
   = Worker.Paged [page [4] None]
   /\ inserts (snd (Worker.paginate sample_normalize sample_parseTimestamp sample_block
                      ([failure; page [1; 2] (Some "c")] ++ page [3] None :: [page [4] None])
                      Worker.initial))
      = pages_of ([failure; page [1; 2] (Some "c")] ++ [page [3] None]))
  /\ (fst (fst (Worker.paginate sample_normalize sample_parseTimestamp sample_block
                  [failure; page [1; 2] (Some "c")] Worker.initial))
      = Worker.PagePending
      /\ inserts (snd (Worker.paginate sample_normalize sample_parseTimestamp sample_block
                         [failure; page [1; 2] (Some "c")] Worker.initial))
         = pages_of [failure; page [1; 2] (Some "c")]).
Proof.
  destruct (paginate_stops_at_first_final sample_normalize sample_parseTimestamp)
    as [Hexit Hpending].
  split.
  - apply Hexit; [repeat constructor | reflexivity].
  - apply Hpending. repeat constructor.
Defined.

Lemma process_retries_probe_witness :
  Worker.process sample_normalize sample_parseTimestamp sample_isHighDensityBlock
    sample_getMiddleDate sample_block ([failure; failure] ++ [page [] None])
    Worker.initial
  = (fst (Worker.process sample_normalize sample_parseTimestamp
            sample_isHighDensityBlock sample_getMiddleDate sample_block
            [page [] None] Worker.initial),
     flat_map
       (fun _ => [Worker.Request
                    (Worker.bounds_query sample_normalize sample_parseTimestamp
                       sample_block "asc");
                  Worker.Delay 5000]) [failure; failure]
     ++ snd (Worker.process sample_normalize sample_parseTimestamp
               sample_isHighDensityBlock sample_getMiddleDate sample_block
               [page [] None] Worker.initial))%list.
Proof.
  apply (process_retries_probe sample_normalize sample_parseTimestamp
           sample_isHighDensityBlock sample_getMiddleDate sample_block
           [failure; failure] [page [] None] Worker.initial).
  repeat constructor.
Defined.

Lemma grain_retries_probe_witness :
  Worker.grain sample_normalize sample_parseTimestamp sample_isHighDensityBlock
    sample_getMiddleDate (map rec_at [0]) sample_block
    ([failure; failure] ++ [page [1000000] None]) Worker.initial
  = (fst (Worker.grain sample_normalize sample_parseTimestamp
            sample_isHighDensityBlock sample_getMiddleDate (map rec_at [0])
            sample_block [page [1000000] None] Worker.initial),
     flat_map
       (fun _ => [Worker.Request
                    (Worker.bounds_query sample_normalize sample_parseTimestamp
                       sample_block "desc");
                  Worker.Delay 5000]) [failure; failure]
     ++ snd (Worker.grain sample_normalize sample_parseTimestamp
               sample_isHighDensityBlock sample_getMiddleDate (map rec_at [0])
               sample_block [page [1000000] None] Worker.initial))%list.
Proof.
  apply (grain_retries_probe sample_normalize sample_parseTimestamp
           sample_isHighDensityBlock sample_getMiddleDate (map rec_at [0])
           sample_block [failure; failure] [page [1000000] None] Worker.initial).
  repeat constructor.
Defined.

Lemma process_sparse_releases_whole_block_witness :
  let run :=
    Worker.process sample_normalize sample_parseTimestamp never_dense
      sample_getMiddleDate sample_block
      [page [0] (Some "c"); page [1000000] None; page [5] None] Worker.initial in
  splits (snd run) = [] /\ releases (snd run) = [Worker.literal sample_block].
Proof.
  intros run.
  destruct (process_sparse_releases_whole_block sample_normalize
              sample_parseTimestamp never_dense sample_getMiddleDate
              (fun _ => eq_refl) sample_block
              [page [0] (Some "c"); page [1000000] None; page [5] None]
              Worker.initial) as [Hsplits Hrelease].
  split; [exact Hsplits | apply Hrelease; reflexivity].
Defined.

Lemma upkeep_splits_well_formed_witness :
  Forall (fun s => startDate s <= endDate s)
    (splits (snd (Worker.upkeep sample_normalize "sales" sample_parseTimestamp
                    sample_isHighDensityBlock 5 [burst_tick; calm_tick]
                    Worker.initial))).
Proof.
  apply (upkeep_splits_well_formed sample_normalize "sales" sample_parseTimestamp
           sample_isHighDensityBlock 5 [burst_tick; calm_tick] Worker.initial).
  repeat constructor; cbn; lia.
Defined.

Lemma upkeep_sparse_never_advances_witness :
  fst (fst (Worker.upkeep sample_normalize "sales" sample_parseTimestamp never_dense
              5 [burst_tick; calm_tick] Worker.initial)) = 5
  /\ splits (snd (Worker.upkeep sample_normalize "sales" sample_parseTimestamp
                    never_dense 5 [burst_tick; calm_tick] Worker.initial)) = [].
Proof.
  apply (upkeep_sparse_never_advances sample_normalize "sales" sample_parseTimestamp
           never_dense (fun _ => eq_refl) 5 [burst_tick; calm_tick] Worker.initial).
Defined.

Lemma upkeep_start_not_before_now_witness :
  5 <= fst (fst (Worker.upkeep sample_normalize "sales" sample_parseTimestamp
                   sample_isHighDensityBlock 5 [burst_tick; calm_tick]
                   Worker.initial)).
Proof.
  apply (upkeep_start_not_before_now sample_normalize "sales" sample_parseTimestamp
           sample_isHighDensityBlock 5 [burst_tick; calm_tick] Worker.initial).
  repeat constructor; cbn; lia.
Defined.
